(** * tienda-clase: order workflow, auth gate, login and client cart

    A shallow embedding of
    - [backend/models/pedidos.model.js]   (order header + order lines),
    - [backend/middlewares/auth.middleware.js] (the JWT gate),
    - [controllers/auth.controller.js]    (login),
    - the cart functions of the frontend [app.js],
    together with the properties the specification states about them.

    Conventions.  JavaScript numbers that hold identifiers, quantities and
    stock are integers ([Z]); prices are carried as integer cents and never
    inspected.  An [async] function over the connection pool is a
    computation in the [query] monad below: it threads the database and may
    throw.  The pool runs every statement in autocommit mode (the source
    never opens a transaction), so a statement that succeeded stays
    persisted when a later one throws: the monad keeps the state on the
    error branch. *)

From stdpp Require Import base list sorting strings.
From Stdlib Require Import Ascii ZArith Lia.

Local Open Scope string_scope.
Local Open Scope list_scope.
Local Open Scope Z_scope.

(* ===================================================================== *)
(** * The relational store *)
(* ===================================================================== *)

(** The tables are the ones documented at the head of [pedidos.model.js]:
    [pedidos (id AUTO_INCREMENT, cliente_id FK, estado, fecha DEFAULT
    CURRENT_TIMESTAMP)] and [pedidos_productos (id AUTO_INCREMENT,
    pedido_id FK, producto_id FK, cantidad)].  A table is the list of its
    rows in insertion order. *)

Inductive estado_pedido : Set :=
  | pendiente | pagado | enviado | entregado | cancelado.

Global Instance estado_pedido_eq_dec : EqDecision estado_pedido.
Proof. solve_decision. Defined.

Record cliente : Set := mk_cliente {
  cl_id : Z;
  cl_nombre : string;
  cl_email : string;
  cl_password : string          (* the bcrypt hash *)
}.

Record producto : Set := mk_producto {
  pr_id : Z;
  pr_nombre : string;
  pr_precio : Z;
  pr_stock : Z
}.

Record pedido : Set := mk_pedido {
  p_id : Z;
  p_cliente_id : Z;
  p_estado : estado_pedido;
  p_fecha : Z
}.

Record pedido_producto : Set := mk_pedido_producto {
  pp_id : Z;
  pp_pedido_id : Z;
  pp_producto_id : Z;
  pp_cantidad : Z
}.

Global Instance pedido_eq_dec : EqDecision pedido.
Proof. solve_decision. Defined.

Global Instance pedido_producto_eq_dec : EqDecision pedido_producto.
Proof. solve_decision. Defined.

Record db : Set := mk_db {
  clientes : list cliente;
  productos : list producto;
  pedidos : list pedido;
  pedidos_productos : list pedido_producto;
  auto_pedidos : Z;             (* next AUTO_INCREMENT of pedidos *)
  auto_pedidos_productos : Z;   (* next AUTO_INCREMENT of pedidos_productos *)
  current_timestamp : Z         (* the server clock *)
}.

(** What [pool.query] rejects a statement with.  The only constraint the
    INSERTs of this module can violate is a foreign key. *)
Inductive db_error : Set :=
  | ER_NO_REFERENCED_ROW_2 (table column : string).

Global Instance db_error_eq_dec : EqDecision db_error.
Proof. solve_decision. Defined.

(** ** Computations over the pool *)

Definition query (A : Type) : Type := db → db * (db_error + A).

Global Instance query_ret : MRet query := λ A x s, (s, inr x).

Global Instance query_bind : MBind query := λ A B f m s,
  match m s with
  | (s', inl e) => (s', inl e)
  | (s', inr a) => f a s'
  end.

Definition throw {A} (e : db_error) : query A := λ s, (s, inl e).

(** [try { body } catch (error) { handler }] *)
Definition try_catch {A} (body : query A) (handler : db_error → query A)
  : query A := λ s,
  match body s with
  | (s', inl e) => handler e s'
  | (s', inr a) => (s', inr a)
  end.

(** ** The statements the module sends *)

Definition existe_cliente (s : db) (id : Z) : bool :=
  bool_decide (id ∈ cl_id <$> clientes s).

Definition existe_producto (s : db) (id : Z) : bool :=
  bool_decide (id ∈ pr_id <$> productos s).

Definition existe_pedido (s : db) (id : Z) : bool :=
  bool_decide (id ∈ p_id <$> pedidos s).

(** [INSERT INTO pedidos (cliente_id) VALUES (?)]; the result carries
    [insertId]. *)
Definition insert_pedidos (clienteId : Z) : query Z := λ s,
  if existe_cliente s clienteId then
    let insertId := auto_pedidos s in
    (mk_db (clientes s) (productos s)
       (pedidos s ++
          [mk_pedido insertId clienteId pendiente (current_timestamp s)])
       (pedidos_productos s)
       (insertId + 1) (auto_pedidos_productos s) (current_timestamp s),
     inr insertId)
  else (s, inl (ER_NO_REFERENCED_ROW_2 "pedidos" "cliente_id")).

(** [INSERT INTO pedidos_productos (pedido_id, producto_id, cantidad)
    VALUES (?, ?, ?)] *)
Definition insert_pedidos_productos (pedidoId productoId cantidad : Z)
  : query Z := λ s,
  if negb (existe_pedido s pedidoId) then
    (s, inl (ER_NO_REFERENCED_ROW_2 "pedidos_productos" "pedido_id"))
  else if negb (existe_producto s productoId) then
    (s, inl (ER_NO_REFERENCED_ROW_2 "pedidos_productos" "producto_id"))
  else
    let insertId := auto_pedidos_productos s in
    (mk_db (clientes s) (productos s) (pedidos s)
       (pedidos_productos s ++
          [mk_pedido_producto insertId pedidoId productoId cantidad])
       (auto_pedidos s) (insertId + 1) (current_timestamp s),
     inr insertId).

(** [SELECT id, cliente_id, estado, fecha FROM pedidos WHERE cliente_id = ?
    ORDER BY fecha DESC].  A SELECT leaves the store as it is. *)
Definition fecha_desc (a b : pedido) : Prop := p_fecha b ≤ p_fecha a.

Global Instance fecha_desc_dec : RelDecision fecha_desc.
Proof. intros a b. unfold fecha_desc. apply _. Defined.

Definition select_pedidos_de_cliente (clienteId : Z) : query (list pedido) :=
  λ s,
  (s, inr (merge_sort fecha_desc
             (filter (λ p, p_cliente_id p = clienteId) (pedidos s)))).

(** [SELECT p.id, p.cliente_id, p.estado, p.fecha FROM pedidos p WHERE
    p.id = ?] *)
Definition select_pedido_por_id (id : Z) : query (list pedido) := λ s,
  (s, inr (filter (λ p, p_id p = id) (pedidos s))).

(** A row of the join of [pedidos_productos] with [productos].  The store
    keeps the columns [id], [nombre], [precio] and [stock] of a product;
    the [imagen_url] column the query also selects is not part of it. *)
Record linea_con_producto : Set := mk_linea_con_producto {
  lp_id : Z;
  lp_cantidad : Z;
  lp_producto_id : Z;
  lp_producto_nombre : string;
  lp_producto_precio : Z
}.

(** The statement below has no ORDER BY: the engine returns the rows of
    the join in an order of its own choosing, some rearrangement of them. *)
Class OrdenDelMotor : Type := {
  orden_del_motor : list linea_con_producto → list linea_con_producto;
  orden_del_motor_permuta : ∀ filas, orden_del_motor filas ≡ₚ filas
}.

(** The rows of the inner join, before the engine orders them. *)
Definition join_lineas_productos (idPedido : Z) (s : db)
  : list linea_con_producto :=
  pp ← filter (λ pp, pp_pedido_id pp = idPedido) (pedidos_productos s);
  pr ← filter (λ pr, pr_id pr = pp_producto_id pp) (productos s);
  [mk_linea_con_producto (pp_id pp) (pp_cantidad pp) (pr_id pr)
     (pr_nombre pr) (pr_precio pr)].

(** [SELECT pp.id, pp.cantidad, pr.id, pr.nombre, pr.precio FROM
    pedidos_productos pp JOIN productos pr ON pp.producto_id = pr.id WHERE
    pp.pedido_id = ?] *)
Definition select_lineas_de_pedido `{OrdenDelMotor} (idPedido : Z)
  : query (list linea_con_producto) := λ s,
  (s, inr (orden_del_motor (join_lineas_productos idPedido s))).

(** [UPDATE pedidos SET estado = ? WHERE id = ?], for the states the
    module documents. *)
Definition con_estado (nuevoEstado : estado_pedido) (p : pedido) : pedido :=
  mk_pedido (p_id p) (p_cliente_id p) nuevoEstado (p_fecha p).

Definition update_pedidos_estado (nuevoEstado : estado_pedido) (idPedido : Z)
  : query unit := λ s,
  (mk_db (clientes s) (productos s)
     ((λ p, if decide (p_id p = idPedido) then con_estado nuevoEstado p
            else p) <$> pedidos s)
     (pedidos_productos s) (auto_pedidos s) (auto_pedidos_productos s)
     (current_timestamp s),
   inr tt).

(* ===================================================================== *)
(** * backend/models/pedidos.model.js *)
(* ===================================================================== *)

Module PedidosModel.

(** The object [crearPedido] returns. *)
Record cabecera : Set := mk_cabecera {
  cab_id : Z;
  cab_cliente_id : Z;
  cab_estado : estado_pedido
}.

(** The object [agregarProductoAPedido] returns. *)
Record linea : Set := mk_linea {
  lin_id : Z;
  lin_pedido_id : Z;
  lin_producto_id : Z;
  lin_cantidad : Z
}.

(** One element of [datos.productos]. *)
Record linea_solicitada : Set := mk_linea_solicitada {
  producto_id : Z;
  cantidad : Z
}.

(** The object [crear] returns. *)
Record pedido_completo : Set := mk_pedido_completo {
  pc_id : Z;
  pc_cliente_id : Z;
  pc_estado : estado_pedido;
  pc_productos : list linea;
  pc_total_productos : Z
}.

Definition crearPedido (clienteId : Z) : query cabecera :=
  insertId ← insert_pedidos clienteId;
  mret (mk_cabecera insertId clienteId pendiente).

Definition agregarProductoAPedido (pedidoId productoId cantidad : Z)
  : query linea :=
  insertId ← insert_pedidos_productos pedidoId productoId cantidad;
  mret (mk_linea insertId pedidoId productoId cantidad).

(** The [for ... of] loop of [crear]: one INSERT per requested line, the
    result pushed onto [productosAgregados]. *)
Fixpoint agregar_productos (pedidoId : Z) (productos : list linea_solicitada)
    (productosAgregados : list linea) : query (list linea) :=
  match productos with
  | [] => mret productosAgregados
  | producto :: resto =>
      lineaPedido ← agregarProductoAPedido pedidoId
                      (producto_id producto) (cantidad producto);
      agregar_productos pedidoId resto (productosAgregados ++ [lineaPedido])
  end.

(** [productos.reduce((total, producto) => total + producto.cantidad, 0)] *)
Definition totalProductos (productos : list linea_solicitada) : Z :=
  foldl (λ total producto, total + cantidad producto) 0 productos.

Definition crear (cliente_id : Z) (productos : list linea_solicitada)
  : query pedido_completo :=
  try_catch
    (pedido ← crearPedido cliente_id;
     productosAgregados ← agregar_productos (cab_id pedido) productos [];
     mret (mk_pedido_completo (cab_id pedido) (cab_cliente_id pedido)
             (cab_estado pedido) productosAgregados
             (totalProductos productos)))
    (λ error, throw error).

Definition obtenerPedidosDeCliente (clienteId : Z) : query (list pedido) :=
  select_pedidos_de_cliente clienteId.

(** [rows[0]]: the first row, or [undefined]. *)
Definition obtenerPedidoPorId (id : Z) : query (option pedido) :=
  rows ← select_pedido_por_id id;
  mret (rows !! 0%nat).

Definition obtenerLineasDePedido `{OrdenDelMotor} (idPedido : Z)
  : query (list linea_con_producto) :=
  select_lineas_de_pedido idPedido.

(** The object [actualizarEstado] returns. *)
Record cambio_estado : Set := mk_cambio_estado {
  ce_id : Z;
  ce_estado : estado_pedido
}.

Definition actualizarEstado (idPedido : Z) (nuevoEstado : estado_pedido)
  : query cambio_estado :=
  _ ← update_pedidos_estado nuevoEstado idPedido;
  mret (mk_cambio_estado idPedido nuevoEstado).

End PedidosModel.

(* ===================================================================== *)
(** * controllers/pedidos.controller.js *)
(* ===================================================================== *)

Module PedidosController.
Import PedidosModel.

(** Why a request is turned down before anything is written. *)
Inductive rechazo : Set :=
  | EmptyCart.

(** The outcome of [POST /api/pedidos] behind the gate: turned down (400),
    created (201), or the error the model threw (500). *)
Inductive resultado : Set :=
  | Rechazado (motivo : rechazo)
  | Creado (pedido : pedido_completo)
  | ErrorDelModelo (error : db_error).

(** Modelled from the spec: the controller [crearPedido] of
    [controllers/pedidos.controller.js], which [routes/pedidos.routes.js]
    mounts behind [verificarToken] and which is not among the sources.  The
    specification gives it as [placeOrder(subjectId, lineRequests)]: step 1
    rejects with [EmptyCart] when [lineRequests] is empty, before any row is
    written (the page says the same of the server: "el backend también
    validará esto", "400: datos inválidos (productos vacíos, etc.)").  Only
    that step is taken from the specification; a non-empty request is
    handed to the model's [crear] for the authenticated client, as the
    source has it. *)
Definition crearPedido (cliente_id : Z) (productos : list linea_solicitada)
  : db → db * resultado := λ s,
  match productos with
  | [] => (s, Rechazado EmptyCart)
  | _ :: _ =>
      match crear cliente_id productos s with
      | (s', inr pedido) => (s', Creado pedido)
      | (s', inl error) => (s', ErrorDelModelo error)
      end
  end.

End PedidosController.

(* ===================================================================== *)
(** * backend/middlewares/auth.middleware.js *)
(* ===================================================================== *)

Module AuthMiddleware.

(** [String.prototype.split(sep)] for a one-character separator: the
    first piece and the pieces after it.  The result is never empty. *)
Fixpoint split_first (sep : ascii) (s : string) : string * list string :=
  match s with
  | EmptyString => (EmptyString, [])
  | String c s' =>
      let '(w, ws) := split_first sep s' in
      if decide (c = sep) then (EmptyString, w :: ws) else (String c w, ws)
  end.

Definition split (sep : ascii) (s : string) : list string :=
  let '(w, ws) := split_first sep s in w :: ws.

(** JavaScript truthiness of a value that is a string or [undefined]. *)
Definition truthy (v : option string) : bool :=
  match v with
  | None => false
  | Some s => negb (bool_decide (s = ""))
  end.

(** The payload [jwt.verify] decodes; a field the token does not carry is
    [undefined]. *)
Record payload : Set := mk_payload {
  pl_cliente_id : option Z;
  pl_email : option string;
  pl_nombre : option string
}.

(** The error object [jwt.verify] throws. *)
Record jwt_error : Set := mk_jwt_error {
  name : string;
  message : string
}.

(** The [jsonwebtoken] package and the process environment are outside
    the repository: [jwt.verify(token, secret)] is an interface whose
    verdict (for the current instant) is either the decoded payload or a
    thrown error. *)
Class JsonWebToken : Type := {
  JWT_SECRET : string;
  jwt_verify : string → string → jwt_error + payload
}.

(** [req.user] *)
Record user : Set := mk_user {
  u_cliente_id : option Z;
  u_id : option Z;
  u_email : option string;
  u_nombre : option string
}.

Record request : Set := mk_request {
  authorization : option string;     (* req.headers.authorization *)
  req_user : option user
}.

(** [res.status(status).json({ mensaje, detalle })] *)
Record respuesta : Set := mk_respuesta {
  status : Z;
  mensaje : string;
  detalle : string
}.

(** The middleware in continuation style, as Express calls it:
    [res] sends the response and ends the request, [next] hands the
    (annotated) request to the downstream handler.  The handlers mounted
    behind it are [async] functions, so [next()] itself does not throw
    into the [try] block. *)
Definition verificarToken `{JsonWebToken} {R : Type}
    (req : request) (res : respuesta → R) (next : request → R) : R :=
  let authHeader := authorization req in
  if negb (truthy authHeader) then
    res (mk_respuesta 401 "Falta cabecera Authorization"
           "Debes incluir 'Authorization: Bearer <token>' en la petición")
  else
    let campos := split " " (default "" authHeader) in
    let bearer := campos !! 0%nat in
    let token := campos !! 1%nat in
    if bool_decide (bearer ≠ Some "Bearer") || negb (truthy token) then
      res (mk_respuesta 401 "Formato de token no válido"
             "El formato debe ser: 'Bearer <token>'")
    else
      match jwt_verify (default "" token) JWT_SECRET with
      | inr decoded =>
          next (mk_request (authorization req)
                  (Some (mk_user (pl_cliente_id decoded)
                           (pl_cliente_id decoded)
                           (pl_email decoded) (pl_nombre decoded))))
      | inl error =>
          let mensaje :=
            if bool_decide (name error = "TokenExpiredError")
            then "Token expirado"
            else if bool_decide (name error = "JsonWebTokenError")
            then "Token malformado"
            else if bool_decide (name error = "NotBeforeError")
            then "Token no es válido todavía"
            else "Token no válido" in
          res (mk_respuesta 401 mensaje
                 "Por favor, inicia sesión nuevamente")
      end.

(** [router.post('/', verificarToken, handler)]: a protected route. *)
Definition ruta_protegida `{JsonWebToken}
    (handler : request → respuesta) (req : request) : respuesta :=
  verificarToken req (λ r, r) handler.

End AuthMiddleware.

(* ===================================================================== *)
(** * controllers/auth.controller.js *)
(* ===================================================================== *)

Module AuthController.

(** A thrown JavaScript error, by its message. *)
Definition exn : Set := string.

(** What [login] calls outside its own file: the client model
    ([clientes.model.js]), [bcryptjs] and [jsonwebtoken].  Each call is
    awaited inside the [try] and may throw. *)
Class Colaboradores : Type := {
  buscarPorEmail : string → exn + option cliente;
  bcrypt_compare : string → string → exn + bool;
  jwt_sign : Z → exn + string
}.

Record usuario_publico : Set := mk_usuario_publico {
  up_id : Z;
  up_nombre : string;
  up_email : string
}.

(** [res.status(status).json({ success, message, token, usuario })] *)
Record login_response : Set := mk_login_response {
  lr_status : Z;
  lr_success : bool;
  lr_message : string;
  lr_token : option string;
  lr_usuario : option usuario_publico
}.

Definition error_interno : login_response :=
  mk_login_response 500 false "Error interno del servidor" None None.

Definition login `{Colaboradores} (email password : string)
  : login_response :=
  match buscarPorEmail email with
  | inl error => error_interno
  | inr None =>
      mk_login_response 401 false "Email o password incorrectos" None None
  | inr (Some usuario) =>
      match bcrypt_compare password (cl_password usuario) with
      | inl error => error_interno
      | inr false =>
          mk_login_response 401 false "Email o password incorrectos"
            None None
      | inr true =>
          match jwt_sign (cl_id usuario) with
          | inl error => error_interno
          | inr token =>
              mk_login_response 200 true "Login exitoso" (Some token)
                (Some (mk_usuario_publico (cl_id usuario)
                         (cl_nombre usuario) (cl_email usuario)))
          end
      end
  end.



(** What [register] calls besides the collaborators of [login]:
    [bcrypt.hash(password, rounds)] and [clientesModel.crearCliente], whose
    result carries [insertId]. *)
Class ColaboradoresRegistro : Type := {
  bcrypt_hash : string → Z → exn + string;
  crearCliente : string → string → string → exn + Z
}.

(** [register] answers with the same JSON shape as [login]. *)
Definition register `{Colaboradores} `{ColaboradoresRegistro}
    (nombre email password : string) : login_response :=
  match buscarPorEmail email with
  | inl error => error_interno
  | inr (Some usuarioExistente) =>
      mk_login_response 400 false "El email ya está registrado" None None
  | inr None =>
      match bcrypt_hash password 10 with
      | inl error => error_interno
      | inr hashedPassword =>
          match crearCliente nombre email hashedPassword with
          | inl error => error_interno
          | inr insertId =>
              match jwt_sign insertId with
              | inl error => error_interno
              | inr token =>
                  mk_login_response 201 true
                    "Usuario registrado exitosamente" (Some token)
                    (Some (mk_usuario_publico insertId nombre email))
              end
          end
      end
  end.

End AuthController.

(* ===================================================================== *)
(** * frontend app.js: the cart *)
(* ===================================================================== *)

Module Frontend.

(** A product as [GET /api/productos] delivers it. *)
Record producto_catalogo : Set := mk_producto_catalogo {
  c_id : Z;
  c_nombre : string;
  c_precio : Z;
  c_stock : Z
}.

(** An entry of [estado.carrito]. *)
Record item : Set := mk_item {
  it_id : Z;
  it_nombre : string;
  it_precio : Z;
  it_cantidad : Z;
  it_stock : Z
}.

(** The global [estado] object. *)
Record estado : Set := mk_estado {
  e_usuario : option string;
  e_token : option string;
  e_productos : list producto_catalogo;
  e_carrito : list item
}.

Definition con_carrito (e : estado) (carrito : list item) : estado :=
  mk_estado (e_usuario e) (e_token e) (e_productos e) carrito.

(** [item.cantidad = n] on the cart entry itself *)
Definition con_cantidad (n : Z) (i : item) : item :=
  mk_item (it_id i) (it_nombre i) (it_precio i) n (it_stock i).

(** [!!(estado.usuario && estado.token)]: the user object is not null and
    the token is a non-empty string. *)
Definition estaLogueado (e : estado) : bool :=
  match e_usuario e, e_token e with
  | Some _, Some t => negb (bool_decide (t = ""))
  | _, _ => false
  end.

(** The alerts, the console output and the redrawing of the page do not
    touch [estado]; a call is the state it leaves behind.  Quantities are
    integers: the value [NaN], which the page's button passes when the
    quantity field is empty, has no counterpart here, and what is proved
    about these functions is proved for integer quantities. *)
Definition agregarAlCarrito (productoId cantidad : Z) (e : estado) : estado :=
  if negb (estaLogueado e) then e
  else
    match list_find (λ p, c_id p = productoId) (e_productos e) with
    | None => e
    | Some (_, producto) =>
        if bool_decide (c_stock producto < cantidad) then e
        else
          match list_find (λ i, it_id i = productoId) (e_carrito e) with
          | Some (k, productoEnCarrito) =>
              let nuevaCantidad := it_cantidad productoEnCarrito + cantidad in
              if bool_decide (nuevaCantidad > c_stock producto) then e
              else con_carrito e
                     (alter (con_cantidad nuevaCantidad) k (e_carrito e))
          | None =>
              con_carrito e
                (e_carrito e ++
                   [mk_item (c_id producto) (c_nombre producto)
                      (c_precio producto) cantidad (c_stock producto)])
          end
    end.

Definition quitarDelCarrito (productoId : Z) (e : estado) : estado :=
  match list_find (λ i, it_id i = productoId) (e_carrito e) with
  | Some (index, _) => con_carrito e (delete index (e_carrito e))
  | None => e
  end.

Definition cambiarCantidad (productoId nuevaCantidad : Z) (e : estado)
  : estado :=
  if bool_decide (nuevaCantidad < 1) then quitarDelCarrito productoId e
  else
    match list_find (λ i, it_id i = productoId) (e_carrito e) with
    | Some (k, productoEnCarrito) =>
        if bool_decide (nuevaCantidad > it_stock productoEnCarrito) then e
        else con_carrito e
               (alter (con_cantidad nuevaCantidad) k (e_carrito e))
    | None => e
    end.

(** The headers [getAuthHeaders] builds. *)
Record cabeceras : Set := mk_cabeceras {
  content_type : string;
  cab_authorization : option string
}.

Definition getAuthHeaders (e : estado) : cabeceras :=
  mk_cabeceras "application/json"
    match e_token e with
    | Some token =>
        if bool_decide (token = "") then None
        else Some (String.append "Bearer " token)
    | None => None
    end.

Definition vaciarCarrito (e : estado) : estado := con_carrito e [].

(** [cerrarSesion] (the copy in [localStorage] is not part of [estado]). *)
Definition cerrarSesion (e : estado) : estado :=
  mk_estado None None (e_productos e) [].


(** [estado.carrito.map(item => ({ producto_id: item.id, cantidad:
    item.cantidad }))] *)
Definition productosParaPedido (carrito : list item)
  : list PedidosModel.linea_solicitada :=
  (λ i, PedidosModel.mk_linea_solicitada (it_id i) (it_cantidad i))
    <$> carrito.

(** What [crearPedido] posts to [/api/pedidos]. *)
Record peticion_pedido : Set := mk_peticion_pedido {
  pet_headers : cabeceras;
  pet_productos : list PedidosModel.linea_solicitada
}.

(** What comes back from [fetch] and [respuesta.json()]: [respuesta.ok]
    and whether the body carries [data]. *)
Record respuesta_pedido : Set := mk_respuesta_pedido {
  rp_ok : bool;
  rp_data : option Z              (* datos.data.id *)
}.

(** The page's [crearPedido].  [fetch] is the server seen from the page;
    [None] is a rejected [fetch] or a body that is not JSON, which the
    [catch] absorbs.  Reading [datos.data.id] of a body without [data]
    throws into the same [catch], before the cart is emptied. *)
Definition crearPedido (fetch : peticion_pedido → option respuesta_pedido)
    (e : estado) : estado :=
  if negb (estaLogueado e) then e
  else if bool_decide (length (e_carrito e) = 0%nat) then e
  else
    match fetch (mk_peticion_pedido (getAuthHeaders e)
                   (productosParaPedido (e_carrito e))) with
    | Some respuesta =>
        if rp_ok respuesta then
          match rp_data respuesta with
          | Some _ => vaciarCarrito e
          | None => e
          end
        else e
    | None => e
    end.

(** The request [crearPedido] sends, if it sends one. *)
Definition peticion_de (e : estado) : option peticion_pedido :=
  if negb (estaLogueado e) then None
  else if bool_decide (length (e_carrito e) = 0%nat) then None
  else Some (mk_peticion_pedido (getAuthHeaders e)
               (productosParaPedido (e_carrito e))).

(** A user action on the cart, and a session of them. *)
Inductive accion : Set :=
  | Agregar (productoId cantidad : Z)
  | Cambiar (productoId nuevaCantidad : Z)
  | Quitar (productoId : Z).

Definition ejecutar (a : accion) (e : estado) : estado :=
  match a with
  | Agregar productoId cantidad => agregarAlCarrito productoId cantidad e
  | Cambiar productoId nuevaCantidad =>
      cambiarCantidad productoId nuevaCantidad e
  | Quitar productoId => quitarDelCarrito productoId e
  end.

Definition sesion (acciones : list accion) (e : estado) : estado :=
  foldl (λ e a, ejecutar a e) e acciones.

(** The property the cart is meant to keep. *)
Definition item_en_rango (i : item) : Prop :=
  1 ≤ it_cantidad i ∧ it_cantidad i ≤ it_stock i.

Definition carrito_valido (carrito : list item) : Prop :=
  Forall item_en_rango carrito ∧ NoDup (it_id <$> carrito).

(** What holds of the cart between two actions: quantities in range, one
    entry per product, and the stock an entry recorded is the stock of the
    catalogue product [find] returns for its identifier. *)
Definition stock_del_catalogo (catalogo : list producto_catalogo) (i : item)
  : Prop :=
  ∃ k p, list_find (λ p, c_id p = it_id i) catalogo = Some (k, p)
         ∧ it_stock i = c_stock p.

Definition invariante (e : estado) : Prop :=
  carrito_valido (e_carrito e)
  ∧ Forall (stock_del_catalogo (e_productos e)) (e_carrito e).

(** An action the page is meant to offer: at least one unit is added. *)
Definition accion_admisible (a : accion) : Prop :=
  match a with
  | Agregar _ cantidad => 1 ≤ cantidad
  | Cambiar _ _ | Quitar _ => True
  end.

(** The characters of a string. *)
Fixpoint caracteres (s : string) : list ascii :=
  match s with
  | EmptyString => []
  | String c s' => c :: caracteres s'
  end.

(** The quantity the cart holds of a product, 0 when it holds none. *)
Definition cantidad_de (productoId : Z) (carrito : list item) : Z :=
  match list_find (λ i, it_id i = productoId) carrito with
  | Some (_, i) => it_cantidad i
  | None => 0
  end.

(** The part of the cart property that needs no assumption on the
    quantities added. *)
Definition carrito_acotado (e : estado) : Prop :=
  Forall (λ i, it_cantidad i ≤ it_stock i) (e_carrito e)
  ∧ NoDup (it_id <$> e_carrito e)
  ∧ Forall (stock_del_catalogo (e_productos e)) (e_carrito e).

End Frontend.

(* ===================================================================== *)
(** * Vocabulary of the statements *)
(* ===================================================================== *)

Module Filas.
Import PedidosModel.

(** The header row an INSERT into [pedidos] adds for [clienteId]. *)
Definition cabecera_de (s : db) (clienteId : Z) : pedido :=
  mk_pedido (auto_pedidos s) clienteId pendiente (current_timestamp s).

(** The rows of [pedidos_productos] that the requested lines become, the
    first of them numbered [n]. *)
Fixpoint filas_de (pedidoId n : Z) (solicitadas : list linea_solicitada)
  : list pedido_producto :=
  match solicitadas with
  | [] => []
  | r :: rs =>
      mk_pedido_producto n pedidoId (producto_id r) (cantidad r)
        :: filas_de pedidoId (n + 1) rs
  end.

(** The same rows as the objects [agregarProductoAPedido] returns. *)
Definition linea_de (f : pedido_producto) : linea :=
  mk_linea (pp_id f) (pp_pedido_id f) (pp_producto_id f) (pp_cantidad f).

(** The store after a header for [clienteId] was inserted. *)
Definition con_cabecera (s : db) (clienteId : Z) : db :=
  mk_db (clientes s) (productos s) (pedidos s ++ [cabecera_de s clienteId])
    (pedidos_productos s) (auto_pedidos s + 1) (auto_pedidos_productos s)
    (current_timestamp s).

(** The store after the rows [filas] were inserted one by one. *)
Definition con_filas (s : db) (filas : list pedido_producto) : db :=
  mk_db (clientes s) (productos s) (pedidos s) (pedidos_productos s ++ filas)
    (auto_pedidos s) (auto_pedidos_productos s + Z.of_nat (length filas))
    (current_timestamp s).

(** Every requested product is in the catalogue. *)
Definition productos_existen (s : db) (solicitadas : list linea_solicitada)
  : Prop :=
  Forall (λ r, existe_producto s (producto_id r) = true) solicitadas.

(** The stock the catalogue holds for a product identifier. *)
Definition stock_de (s : db) (productoId : Z) : option Z :=
  pr_stock <$> (snd <$> list_find (λ p, pr_id p = productoId) (productos s)).

(** Every requested quantity is within the stock of its product. *)
Definition dentro_de_stock (s : db) (solicitadas : list linea_solicitada)
  : Prop :=
  Forall (λ r, ∃ disponible, stock_de s (producto_id r) = Some disponible
                             ∧ cantidad r ≤ disponible) solicitadas.

(** The sum of the requested quantities. *)
Definition suma_cantidades (solicitadas : list linea_solicitada) : Z :=
  foldr (λ r total, cantidad r + total) 0 solicitadas.

(** The keys and references of the order tables are sound: identifiers
    are unique and below the next AUTO_INCREMENT value, every order belongs
    to a client, every line to an order and to a product. *)
Definition db_consistente (s : db) : Prop :=
  NoDup (p_id <$> pedidos s)
  ∧ Forall (λ p, p_id p < auto_pedidos s) (pedidos s)
  ∧ NoDup (pp_id <$> pedidos_productos s)
  ∧ Forall (λ f, pp_id f < auto_pedidos_productos s) (pedidos_productos s)
  ∧ Forall (λ p, p_cliente_id p ∈ cl_id <$> clientes s) (pedidos s)
  ∧ Forall (λ f, pp_pedido_id f ∈ p_id <$> pedidos s
                 ∧ pp_producto_id f ∈ pr_id <$> productos s)
      (pedidos_productos s).

(** [s'] is [s] with rows added at the end of the order tables and
    nothing else touched. *)
Definition solo_agrega (s s' : db) : Prop :=
  clientes s' = clientes s
  ∧ productos s' = productos s
  ∧ pedidos s `prefix_of` pedidos s'
  ∧ pedidos_productos s `prefix_of` pedidos_productos s'
  ∧ current_timestamp s' = current_timestamp s.

(** The joined row of a line whose product is [pr]. *)
Definition fila_con_producto (f : pedido_producto) (pr : producto)
  : linea_con_producto :=
  mk_linea_con_producto (pp_id f) (pp_cantidad f) (pr_id pr) (pr_nombre pr)
    (pr_precio pr).

(** What the UPDATE does to one row. *)
Definition aplicar_estado (id : Z) (nuevo : estado_pedido) (p : pedido)
  : pedido :=
  if decide (p_id p = id) then con_estado nuevo p else p.

(** A rewrite of rows applied to every run on the stack of the merge
    sort. *)
Definition pila_fmap (g : pedido → pedido) (st : list (option (list pedido)))
  : list (option (list pedido)) :=
  (λ o : option (list pedido), (λ l : list pedido, g <$> l) <$> o) <$> st.

End Filas.

(** A small shop used to run the functions on concrete data: one client,
    two products (stock 5 and stock 1), no orders yet. *)
Module Ejemplo.
Import PedidosModel.

Definition ana : cliente := mk_cliente 1 "Ana" "ana@x.com" "$2a$10$hash".

Definition tienda : db :=
  mk_db [ana]
    [mk_producto 1 "Camiseta" 1999 5; mk_producto 2 "Gorra" 950 1]
    [] [] 1 1 1000.

(** Two lines, both within stock (the scenario of the specification). *)
Definition dos_lineas : list linea_solicitada :=
  [mk_linea_solicitada 1 2; mk_linea_solicitada 2 1].

(** The second line names a product that is not in the catalogue. *)
Definition con_producto_inexistente : list linea_solicitada :=
  [mk_linea_solicitada 1 2; mk_linea_solicitada 999 1].

(** Seven units of a product that has one in stock. *)
Definition sobre_stock : list linea_solicitada :=
  [mk_linea_solicitada 2 7].

(** Orders of two clients, inserted out of date order. *)
Definition con_historial : db :=
  mk_db [ana; mk_cliente 2 "Luis" "luis@x.com" "$2a$10$otro"]
    (productos tienda)
    [mk_pedido 1 1 entregado 100; mk_pedido 2 2 pendiente 250;
     mk_pedido 3 1 pendiente 300; mk_pedido 4 1 pagado 200]
    [] 5 1 1000.

(** A verifier standing in for [jsonwebtoken] on four named tokens. *)
Definition jwt_de_prueba : AuthMiddleware.JsonWebToken :=
  {| AuthMiddleware.JWT_SECRET := "secreto";
     AuthMiddleware.jwt_verify token _ :=
       if bool_decide (token = "valido")
       then inr (AuthMiddleware.mk_payload (Some 1) None None)
       else if bool_decide (token = "caducado")
       then inl (AuthMiddleware.mk_jwt_error "TokenExpiredError" "jwt expired")
       else if bool_decide (token = "prematuro")
       then inl (AuthMiddleware.mk_jwt_error "NotBeforeError" "jwt not active")
       else inl (AuthMiddleware.mk_jwt_error "JsonWebTokenError"
                   "jwt malformed") |}.

(** A verifier that accepts whatever it is given. *)
Definition jwt_que_acepta_todo : AuthMiddleware.JsonWebToken :=
  {| AuthMiddleware.JWT_SECRET := "secreto";
     AuthMiddleware.jwt_verify _ _ :=
       inr (AuthMiddleware.mk_payload (Some 1) None None) |}.

(** A downstream handler that answers 200. *)
Definition controlador (req : AuthMiddleware.request)
  : AuthMiddleware.respuesta :=
  AuthMiddleware.mk_respuesta 200 "controlador ejecutado" "".

(** The collaborators of [login] over the clients of [tienda]; the
    stand-in for bcrypt accepts the password [s3cret1] for any hash. *)
Definition colaboradores_de_prueba : AuthController.Colaboradores :=
  {| AuthController.buscarPorEmail email :=
       inr (snd <$> list_find (λ c, cl_email c = email) (clientes tienda));
     AuthController.bcrypt_compare password _ :=
       inr (bool_decide (password = "s3cret1"));
     AuthController.jwt_sign _ := inr "token" |}.

(** A logged-in browser session with the catalogue loaded and an empty
    cart. *)
Definition sesion_iniciada : Frontend.estado :=
  Frontend.mk_estado (Some "Ana") (Some "token")
    [Frontend.mk_producto_catalogo 1 "Camiseta" 1999 5;
     Frontend.mk_producto_catalogo 2 "Gorra" 950 1]
    [].

(** Two engines: one returns the join as it is built, one backwards. *)
Definition motor_en_orden : OrdenDelMotor :=
  {| orden_del_motor filas := filas;
     orden_del_motor_permuta filas := reflexivity filas |}.

Definition motor_al_reves : OrdenDelMotor :=
  {| orden_del_motor filas := reverse filas;
     orden_del_motor_permuta filas := reverse_Permutation filas |}.

(** The collaborators of [register]: the stand-in hash prefixes the
    password, the insert hands out identifier 2. *)
Definition registro_de_prueba : AuthController.ColaboradoresRegistro :=
  {| AuthController.bcrypt_hash password _ :=
       inr (String.append "hash:" password);
     AuthController.crearCliente _ _ _ := inr 2 |}.

End Ejemplo.

(* ===================================================================== *)
(** * Facts about the store and the [query] monad *)
(* ===================================================================== *)

Section store_facts.
Import PedidosModel Filas.

Lemma con_filas_nil s : con_filas s [] = s.
Proof.
  destruct s. unfold con_filas. simpl.
  rewrite app_nil_r, Z.add_0_r. reflexivity.
Qed.

Lemma con_filas_cons s f fs :
  con_filas (con_filas s [f]) fs = con_filas s (f :: fs).
Proof.
  unfold con_filas. simpl. f_equal.
  - rewrite <- app_assoc. reflexivity.
  - lia.
Qed.

Lemma existe_producto_con_filas s fs id :
  existe_producto (con_filas s fs) id = existe_producto s id.
Proof. reflexivity. Qed.

Lemma existe_producto_con_cabecera s c id :
  existe_producto (con_cabecera s c) id = existe_producto s id.
Proof. reflexivity. Qed.

Lemma existe_pedido_con_cabecera s c :
  existe_pedido (con_cabecera s c) (auto_pedidos s) = true.
Proof.
  unfold existe_pedido, con_cabecera. simpl.
  apply bool_decide_eq_true. rewrite fmap_app. simpl.
  apply elem_of_app. right. apply list_elem_of_singleton. reflexivity.
Qed.

Lemma insert_pedidos_ok s c :
  existe_cliente s c = true →
  insert_pedidos c s = (con_cabecera s c, inr (auto_pedidos s)).
Proof. intros Hc. unfold insert_pedidos. rewrite Hc. reflexivity. Qed.

Lemma insert_pedidos_sin_cliente s c :
  existe_cliente s c = false →
  insert_pedidos c s = (s, inl (ER_NO_REFERENCED_ROW_2 "pedidos" "cliente_id")).
Proof. intros Hc. unfold insert_pedidos. rewrite Hc. reflexivity. Qed.

Lemma agregarProductoAPedido_ok s pid r :
  existe_pedido s pid = true →
  existe_producto s (producto_id r) = true →
  agregarProductoAPedido pid (producto_id r) (cantidad r) s
  = (con_filas s (filas_de pid (auto_pedidos_productos s) [r]),
     inr (mk_linea (auto_pedidos_productos s) pid (producto_id r)
            (cantidad r))).
Proof.
  intros Hp Hr.
  unfold agregarProductoAPedido, mbind, query_bind, insert_pedidos_productos.
  rewrite Hp, Hr. reflexivity.
Qed.

Lemma agregarProductoAPedido_sin_producto s pid r :
  existe_pedido s pid = true →
  existe_producto s (producto_id r) = false →
  agregarProductoAPedido pid (producto_id r) (cantidad r) s
  = (s, inl (ER_NO_REFERENCED_ROW_2 "pedidos_productos" "producto_id")).
Proof.
  intros Hp Hr.
  unfold agregarProductoAPedido, mbind, query_bind, insert_pedidos_productos.
  rewrite Hp, Hr. reflexivity.
Qed.

(** The loop over existing products inserts every line. *)
Lemma agregar_productos_ok solicitadas : ∀ s pid agregados,
  existe_pedido s pid = true →
  productos_existen s solicitadas →
  agregar_productos pid solicitadas agregados s
  = (con_filas s (filas_de pid (auto_pedidos_productos s) solicitadas),
     inr (agregados
          ++ (linea_de <$> filas_de pid (auto_pedidos_productos s) solicitadas))).
Proof.
  induction solicitadas as [|r rs IH]; intros s pid agregados Hp Hex.
  - simpl. rewrite con_filas_nil, app_nil_r. reflexivity.
  - inversion Hex as [|? ? Hr Hrs]; subst.
    cbn [agregar_productos]. unfold mbind at 1, query_bind at 1.
    rewrite agregarProductoAPedido_ok by assumption.
    rewrite IH; [| exact Hp | exact Hrs].
    cbn [filas_de]. rewrite con_filas_cons.
    cbn [fmap list_fmap linea_de pp_id pp_pedido_id pp_producto_id pp_cantidad
         con_filas auto_pedidos_productos length].
    rewrite <- app_assoc.
    replace (auto_pedidos_productos s + Z.of_nat 1)
      with (auto_pedidos_productos s + 1) by lia.
    reflexivity.
Qed.

(** The loop stops at the first line whose product is missing; the lines
    before it are already in the table. *)
Lemma agregar_productos_falla previas : ∀ s pid agregados malo resto,
  existe_pedido s pid = true →
  productos_existen s previas →
  existe_producto s (producto_id malo) = false →
  agregar_productos pid (previas ++ malo :: resto) agregados s
  = (con_filas s (filas_de pid (auto_pedidos_productos s) previas),
     inl (ER_NO_REFERENCED_ROW_2 "pedidos_productos" "producto_id")).
Proof.
  induction previas as [|r rs IH]; intros s pid agregados malo resto Hp Hex Hm.
  - cbn [app agregar_productos filas_de]. unfold mbind, query_bind.
    rewrite agregarProductoAPedido_sin_producto by assumption.
    rewrite con_filas_nil. reflexivity.
  - inversion Hex as [|? ? Hr Hrs]; subst.
    cbn [app agregar_productos]. unfold mbind at 1, query_bind at 1.
    rewrite agregarProductoAPedido_ok by assumption.
    rewrite IH; [| exact Hp | exact Hrs | exact Hm].
    cbn [filas_de]. rewrite con_filas_cons.
    cbn [con_filas auto_pedidos_productos length].
    replace (auto_pedidos_productos s + Z.of_nat 1)
      with (auto_pedidos_productos s + 1) by lia.
    reflexivity.
Qed.

Lemma filas_de_length pid n solicitadas :
  length (filas_de pid n solicitadas) = length solicitadas.
Proof.
  revert n. induction solicitadas as [|r rs IH]; intros n; simpl;
    [reflexivity | rewrite IH; reflexivity].
Qed.

Lemma filas_de_pedido pid n solicitadas :
  Forall (λ f, pp_pedido_id f = pid) (filas_de pid n solicitadas).
Proof.
  revert n. induction solicitadas as [|r rs IH]; intros n; simpl;
    constructor; [reflexivity | apply IH].
Qed.

Lemma filas_de_contenido pid n solicitadas :
  (λ f, mk_linea_solicitada (pp_producto_id f) (pp_cantidad f))
    <$> filas_de pid n solicitadas = solicitadas.
Proof.
  revert n. induction solicitadas as [|[] rs IH]; intros n; simpl;
    [reflexivity | rewrite IH; reflexivity].
Qed.

Lemma totalProductos_suma solicitadas :
  totalProductos solicitadas = suma_cantidades solicitadas.
Proof.
  unfold totalProductos, suma_cantidades.
  assert (∀ a, foldl (λ total producto, total + cantidad producto) a solicitadas
               = a + foldr (λ r total, cantidad r + total) 0 solicitadas)
    as Hgen.
  { induction solicitadas as [|r rs IH]; intros a; simpl; [lia |].
    rewrite IH. lia. }
  rewrite Hgen. lia.
Qed.

(** [crear] on an existing client and existing products. *)
Lemma crear_ok s c solicitadas :
  existe_cliente s c = true →
  productos_existen s solicitadas →
  crear c solicitadas s
  = (con_filas (con_cabecera s c)
       (filas_de (auto_pedidos s) (auto_pedidos_productos s) solicitadas),
     inr (mk_pedido_completo (auto_pedidos s) c pendiente
            (linea_de <$> filas_de (auto_pedidos s) (auto_pedidos_productos s)
                            solicitadas)
            (totalProductos solicitadas))).
Proof.
  intros Hc Hex.
  unfold crear, try_catch, crearPedido, mbind, query_bind.
  rewrite insert_pedidos_ok by exact Hc.
  unfold mret, query_ret.
  cbn [cab_id cab_cliente_id cab_estado].
  rewrite agregar_productos_ok;
    [| apply existe_pedido_con_cabecera | exact Hex].
  reflexivity.
Qed.

(** [crear] on an existing client, when the product of some line is
    missing: the header and the lines before it went in. *)
Lemma crear_falla s c previas malo resto :
  existe_cliente s c = true →
  productos_existen s previas →
  existe_producto s (producto_id malo) = false →
  crear c (previas ++ malo :: resto) s
  = (con_filas (con_cabecera s c)
       (filas_de (auto_pedidos s) (auto_pedidos_productos s) previas),
     inl (ER_NO_REFERENCED_ROW_2 "pedidos_productos" "producto_id")).
Proof.
  intros Hc Hprev Hmalo.
  unfold crear, try_catch, crearPedido, mbind, query_bind.
  rewrite insert_pedidos_ok by exact Hc.
  unfold mret, query_ret. cbn [cab_id].
  rewrite agregar_productos_falla;
    [reflexivity | apply existe_pedido_con_cabecera | exact Hprev
    | exact Hmalo].
Qed.

End store_facts.

(* ===================================================================== *)
(** * The order workflow: [crear] *)
(* ===================================================================== *)

Section crear_facts.
Import PedidosModel Filas Ejemplo.

(** C1 (the code breaks it).  [crear] is not all-or-nothing: when the
    INSERT of a line fails after the header and some lines went in, the
    error is rethrown and the header row and every line inserted before
    the failing one stay in the store. *)
Theorem crear_fallo_deja_cabecera_y_lineas s c previas malo resto :
  existe_cliente s c = true →
  productos_existen s previas →
  existe_producto s (producto_id malo) = false →
  ∃ s',
    crear c (previas ++ malo :: resto) s
    = (s', inl (ER_NO_REFERENCED_ROW_2 "pedidos_productos" "producto_id"))
    ∧ pedidos s' = pedidos s ++ [cabecera_de s c]
    ∧ pedidos_productos s'
      = pedidos_productos s
        ++ filas_de (auto_pedidos s) (auto_pedidos_productos s) previas.
Proof.
  intros Hc Hprev Hmalo.
  eexists. split; [| split].
  - apply crear_falla; assumption.
  - reflexivity.
  - reflexivity.
Qed.

(** The example shop, a request whose second product is missing. *)
Lemma crear_fallo_deja_cabecera_y_lineas_witness :
  ∃ s',
    crear 1 con_producto_inexistente tienda
    = (s', inl (ER_NO_REFERENCED_ROW_2 "pedidos_productos" "producto_id"))
    ∧ pedidos s' = [mk_pedido 1 1 pendiente 1000]
    ∧ pedidos_productos s' = [mk_pedido_producto 1 1 1 2].
Proof.
  apply (crear_fallo_deja_cabecera_y_lineas tienda 1
           [mk_linea_solicitada 1 2] (mk_linea_solicitada 999 1) []).
  - reflexivity.
  - repeat constructor.
  - reflexivity.
Defined.

(** The model function has no check of its own for an empty list: called
    directly on the example shop, [crear] succeeds and leaves a header row
    behind.  Turning an empty cart down is the controller's part. *)
Lemma crear_vacio_no_rechaza :
  crear 1 [] tienda
  = (con_cabecera tienda 1, inr (mk_pedido_completo 1 1 pendiente [] 0))
  ∧ pedidos (con_cabecera tienda 1) = [mk_pedido 1 1 pendiente 1000]
  ∧ pedidos tienda = [].
Proof. repeat split. Qed.

(** For every client of the store, [crear] called with an empty line
    list succeeds (the [for] loop runs zero times): it persists one header
    row in state [pendiente] and no line row, and returns an order with no
    lines and a total of 0. *)
Lemma crear_vacio_crea_pedido_sin_lineas s c :
  existe_cliente s c = true →
  ∃ s',
    crear c [] s
    = (s', inr (mk_pedido_completo (auto_pedidos s) c pendiente [] 0))
    ∧ pedidos s' = pedidos s ++ [cabecera_de s c]
    ∧ pedidos_productos s' = pedidos_productos s.
Proof.
  intros Hc. eexists. split; [| split].
  - rewrite crear_ok; [| exact Hc | constructor].
    cbn [filas_de fmap list_fmap]. rewrite con_filas_nil. reflexivity.
  - reflexivity.
  - reflexivity.
Qed.

(** The example shop, an empty request. *)
Lemma crear_vacio_crea_pedido_sin_lineas_witness :
  ∃ s',
    crear 1 [] tienda
    = (s', inr (mk_pedido_completo 1 1 pendiente [] 0))
    ∧ pedidos s' = [mk_pedido 1 1 pendiente 1000]
    ∧ pedidos_productos s' = [].
Proof.
  apply (crear_vacio_crea_pedido_sin_lineas tienda 1). reflexivity.
Defined.

(** C2.  For every store and every authenticated client, a request with
    an empty line list is turned down with [EmptyCart], and the store is
    left exactly as it was: no order row and no line row is written. *)
Theorem crearPedido_rechaza_carrito_vacio s cliente_id :
  ∃ s',
    PedidosController.crearPedido cliente_id [] s
    = (s', PedidosController.Rechazado PedidosController.EmptyCart)
    ∧ s' = s
    ∧ pedidos s' = pedidos s
    ∧ pedidos_productos s' = pedidos_productos s.
Proof. exists s. repeat split. Qed.

(** A request with at least one line goes to the model as it is: the
    controller answers with what [crear] returned or threw, on the store
    [crear] left. *)
Lemma crearPedido_delega_en_crear s cliente_id linea resto :
  PedidosController.crearPedido cliente_id (linea :: resto) s
  = match crear cliente_id (linea :: resto) s with
    | (s', inr pedido) => (s', PedidosController.Creado pedido)
    | (s', inl error) => (s', PedidosController.ErrorDelModelo error)
    end.
Proof. reflexivity. Qed.

(** C3 (as stated it fails).  A request naming a product that does not
    exist fails, but with the store's foreign-key error, and it is not
    true that nothing is persisted: the header and the line before the
    missing product are in the store afterwards. *)
Lemma crear_producto_inexistente_persiste :
  existe_producto tienda 999 = false
  ∧ ∃ s',
      crear 1 con_producto_inexistente tienda
      = (s', inl (ER_NO_REFERENCED_ROW_2 "pedidos_productos" "producto_id"))
      ∧ pedidos tienda = [] ∧ pedidos_productos tienda = []
      ∧ pedidos s' = [mk_pedido 1 1 pendiente 1000]
      ∧ pedidos_productos s' = [mk_pedido_producto 1 1 1 2].
Proof. split; [reflexivity |]. eexists. repeat split. Qed.

(** C3 (amended).  For every call of [crear] in which at least one
    requested product identifier is not in the catalogue, the call fails
    and returns no order: the foreign-key error of the store is rethrown
    as it is (on the line's product when the client exists, on the header's
    client otherwise). *)
Theorem crear_producto_inexistente_falla s c solicitadas :
  Exists (λ r, existe_producto s (producto_id r) = false) solicitadas →
  ∃ s',
    crear c solicitadas s
    = (s', inl (if existe_cliente s c
                then ER_NO_REFERENCED_ROW_2 "pedidos_productos" "producto_id"
                else ER_NO_REFERENCED_ROW_2 "pedidos" "cliente_id")).
Proof.
  intros Hex.
  destruct (existe_cliente s c) eqn:Hc.
  - (* cut the list at the first missing product *)
    assert (∃ previas malo resto,
               solicitadas = previas ++ malo :: resto
               ∧ productos_existen s previas
               ∧ existe_producto s (producto_id malo) = false)
      as (previas & malo & resto & -> & Hprev & Hmalo).
    { clear Hc. induction Hex as [r rs Hr | r rs _ IH].
      - exists [], r, rs. split; [reflexivity |]. split; [constructor | exact Hr].
      - destruct (existe_producto s (producto_id r)) eqn:Hr.
        + destruct IH as (previas & malo & resto & -> & Hprev & Hmalo).
          exists (r :: previas), malo, resto.
          split; [reflexivity |]. split; [constructor; assumption | exact Hmalo].
        + exists [], r, rs.
          split; [reflexivity |]. split; [constructor | exact Hr]. }
    eexists. apply crear_falla; [exact Hc | exact Hprev | exact Hmalo].
  - exists s. unfold crear, try_catch, crearPedido, mbind, query_bind.
    rewrite insert_pedidos_sin_cliente by exact Hc. reflexivity.
Qed.

(** The example shop, a request naming product 999. *)
Lemma crear_producto_inexistente_falla_witness :
  ∃ s',
    crear 1 con_producto_inexistente tienda
    = (s', inl (ER_NO_REFERENCED_ROW_2 "pedidos_productos" "producto_id")).
Proof.
  apply (crear_producto_inexistente_falla tienda 1 con_producto_inexistente).
  apply Exists_cons_tl, Exists_cons_hd. reflexivity.
Defined.

(** C4 (the code breaks it).  [crear] never reads the stock: a request in
    which some quantity exceeds the stock of its product succeeds like any
    other, and the header and all its lines are persisted. *)
Theorem crear_no_valida_stock s c solicitadas :
  existe_cliente s c = true →
  productos_existen s solicitadas →
  Exists (λ r, ∃ disponible, stock_de s (producto_id r) = Some disponible
                             ∧ disponible < cantidad r) solicitadas →
  ∃ s' pedido,
    crear c solicitadas s = (s', inr pedido)
    ∧ pedidos s' = pedidos s ++ [cabecera_de s c]
    ∧ pedidos_productos s'
      = pedidos_productos s
        ++ filas_de (auto_pedidos s) (auto_pedidos_productos s) solicitadas.
Proof.
  intros Hc Hex _. do 2 eexists. split; [| split].
  - apply crear_ok; assumption.
  - reflexivity.
  - reflexivity.
Qed.

(** The example shop, seven units of a product with one in stock. *)
Lemma crear_no_valida_stock_witness :
  ∃ s' pedido,
    crear 1 sobre_stock tienda = (s', inr pedido)
    ∧ pedidos s' = [mk_pedido 1 1 pendiente 1000]
    ∧ pedidos_productos s' = [mk_pedido_producto 1 1 2 7].
Proof.
  apply (crear_no_valida_stock tienda 1 sobre_stock).
  - reflexivity.
  - repeat constructor.
  - apply Exists_cons_hd. exists 1. split; [reflexivity | simpl; lia].
Defined.

(** C5.  For every non-empty list of requested lines whose products all
    exist and whose quantities are within stock, placed by a client of the
    store, [crear] succeeds; the order it returns is [pendiente], has as
    many lines as were requested, and its total is the sum of the requested
    quantities.  The store gains the header of that order and one row per
    requested line, in order, each carrying the order's identifier and the
    requested product and quantity. *)
Theorem crear_devuelve_pedido_completo s c solicitadas :
  solicitadas ≠ [] →
  existe_cliente s c = true →
  productos_existen s solicitadas →
  dentro_de_stock s solicitadas →
  ∃ s' pedido filas,
    crear c solicitadas s = (s', inr pedido)
    ∧ pc_estado pedido = pendiente
    ∧ pc_cliente_id pedido = c
    ∧ length (pc_productos pedido) = length solicitadas
    ∧ pc_total_productos pedido = suma_cantidades solicitadas
    ∧ pc_productos pedido = linea_de <$> filas
    ∧ pedidos s'
      = pedidos s ++ [mk_pedido (pc_id pedido) c pendiente (current_timestamp s)]
    ∧ pedidos_productos s' = pedidos_productos s ++ filas
    ∧ length filas = length solicitadas
    ∧ Forall (λ f, pp_pedido_id f = pc_id pedido) filas
    ∧ (λ f, mk_linea_solicitada (pp_producto_id f) (pp_cantidad f)) <$> filas
      = solicitadas.
Proof.
  intros _ Hc Hex _.
  exists (con_filas (con_cabecera s c)
            (filas_de (auto_pedidos s) (auto_pedidos_productos s) solicitadas)).
  eexists.
  exists (filas_de (auto_pedidos s) (auto_pedidos_productos s) solicitadas).
  split; [apply crear_ok; assumption |].
  cbn [pc_estado pc_cliente_id pc_productos pc_total_productos pc_id].
  repeat split.
  - rewrite length_fmap. apply filas_de_length.
  - apply totalProductos_suma.
  - apply filas_de_length.
  - apply filas_de_pedido.
  - apply filas_de_contenido.
Qed.

(** The scenario of the specification: two lines, three units. *)
Lemma crear_devuelve_pedido_completo_witness :
  ∃ s' pedido filas,
    crear 1 dos_lineas tienda = (s', inr pedido)
    ∧ pc_estado pedido = pendiente
    ∧ pc_cliente_id pedido = 1
    ∧ length (pc_productos pedido) = 2%nat
    ∧ pc_total_productos pedido = 3
    ∧ pc_productos pedido = linea_de <$> filas
    ∧ pedidos s' = [mk_pedido (pc_id pedido) 1 pendiente 1000]
    ∧ pedidos_productos s' = filas
    ∧ length filas = 2%nat
    ∧ Forall (λ f, pp_pedido_id f = pc_id pedido) filas
    ∧ (λ f, mk_linea_solicitada (pp_producto_id f) (pp_cantidad f)) <$> filas
      = dos_lineas.
Proof.
  apply (crear_devuelve_pedido_completo tienda 1 dos_lineas).
  - discriminate.
  - reflexivity.
  - repeat constructor.
  - repeat constructor.
    + exists 5. split; [reflexivity | simpl; lia].
    + exists 1. split; [reflexivity | simpl; lia].
Defined.

End crear_facts.

(* ===================================================================== *)
(** * The order query: [obtenerPedidosDeCliente] *)
(* ===================================================================== *)

Section listado_facts.
Import PedidosModel Ejemplo.

Global Instance fecha_desc_total : Total fecha_desc.
Proof. intros a b. unfold fecha_desc. lia. Qed.

Global Instance fecha_desc_trans : Transitive fecha_desc.
Proof. intros a b c. unfold fecha_desc. lia. Qed.

(** C9.  For every client identifier the query succeeds, leaves the store
    as it is and returns exactly the orders of [pedidos] whose [cliente_id]
    is that client (each as often as the table holds it, none of another
    client), ordered by [fecha] with the newest first; when the client has no
    order the result is the empty list. *)
Theorem obtenerPedidosDeCliente_propios_recientes_primero s clienteId :
  ∃ filas,
    obtenerPedidosDeCliente clienteId s = (s, inr filas)
    ∧ filas ≡ₚ filter (λ p, p_cliente_id p = clienteId) (pedidos s)
    ∧ (∀ p, p ∈ filas ↔ p ∈ pedidos s ∧ p_cliente_id p = clienteId)
    ∧ StronglySorted (λ nuevo viejo, p_fecha viejo ≤ p_fecha nuevo) filas
    ∧ ((∀ p, p ∈ pedidos s → p_cliente_id p ≠ clienteId) → filas = []).
Proof.
  eexists. split; [reflexivity |].
  assert (merge_sort fecha_desc
            (filter (λ p, p_cliente_id p = clienteId) (pedidos s))
          ≡ₚ filter (λ p, p_cliente_id p = clienteId) (pedidos s)) as Hperm
    by apply merge_sort_Permutation.
  split; [exact Hperm |]. split; [| split].
  - intros p. rewrite Hperm, list_elem_of_filter. tauto.
  - apply (StronglySorted_merge_sort fecha_desc).
  - intros Hnone.
    apply Permutation_nil_r. rewrite Hperm.
    assert (filter (λ p, p_cliente_id p = clienteId) (pedidos s) = [])
      as ->; [| reflexivity].
    clear Hperm. revert Hnone. generalize (pedidos s) as tabla.
    induction tabla as [|p ps IH]; intros Hnone; [reflexivity |].
    rewrite filter_cons.
    destruct (decide (p_cliente_id p = clienteId)) as [Heq | _].
    + exfalso. apply (Hnone p); [left | exact Heq].
    + apply IH. intros q Hq. apply Hnone. right. exact Hq.
Qed.

(** The query on a table with orders of two clients. *)
Example obtenerPedidosDeCliente_ejemplo :
  obtenerPedidosDeCliente 1 con_historial
  = (con_historial,
     inr [mk_pedido 3 1 pendiente 300; mk_pedido 4 1 pagado 200;
          mk_pedido 1 1 entregado 100])
  ∧ obtenerPedidosDeCliente 7 con_historial = (con_historial, inr []).
Proof. split; reflexivity. Qed.

End listado_facts.

(* ===================================================================== *)
(** * The auth gate: [verificarToken] *)
(* ===================================================================== *)

Section puerta_facts.
Import AuthMiddleware.
Context `{JsonWebToken} {R : Type}.
Implicit Types (req : request) (res : respuesta → R) (next : request → R).

(** A header [Bearer <token>] with a non-empty token reaches the [try]
    block: the outcome is the verdict of [jwt.verify] on that token. *)
Lemma verificarToken_delegado req res next cabecera token resto :
  authorization req = Some cabecera →
  split " " cabecera = "Bearer" :: token :: resto →
  token ≠ "" →
  verificarToken req res next
  = match jwt_verify token JWT_SECRET with
    | inr decoded =>
        next (mk_request (authorization req)
                (Some (mk_user (pl_cliente_id decoded) (pl_cliente_id decoded)
                         (pl_email decoded) (pl_nombre decoded))))
    | inl error =>
        res (mk_respuesta 401
               (if bool_decide (name error = "TokenExpiredError")
                then "Token expirado"
                else if bool_decide (name error = "JsonWebTokenError")
                then "Token malformado"
                else if bool_decide (name error = "NotBeforeError")
                then "Token no es válido todavía"
                else "Token no válido")
               "Por favor, inicia sesión nuevamente")
    end.
Proof.
  intros Hcab Hsplit Htoken.
  assert (cabecera ≠ "") as Hne.
  { intros ->. discriminate Hsplit. }
  unfold verificarToken. rewrite Hcab. cbn [truthy default from_option id].
  rewrite (bool_decide_eq_false_2 _ Hne). cbn [negb].
  rewrite Hsplit. cbn [lookup list_lookup truthy default from_option id].
  rewrite (bool_decide_eq_false_2 (Some "Bearer" ≠ Some "Bearer"))
    by (intros Hc; apply Hc; reflexivity).
  rewrite (bool_decide_eq_false_2 _ Htoken). cbn [negb orb].
  reflexivity.
Qed.

(** A missing or empty header is answered before anything else is read. *)
Lemma verificarToken_sin_cabecera req res next :
  truthy (authorization req) = false →
  verificarToken req res next
  = res (mk_respuesta 401 "Falta cabecera Authorization"
           "Debes incluir 'Authorization: Bearer <token>' en la petición").
Proof. intros Hf. unfold verificarToken. rewrite Hf. reflexivity. Qed.

(** A header whose first field is not [Bearer], or with no token after
    it, is answered with the format error. *)
Lemma verificarToken_formato req res next cabecera :
  authorization req = Some cabecera →
  cabecera ≠ "" →
  split " " cabecera !! 0%nat ≠ Some "Bearer"
  ∨ truthy (split " " cabecera !! 1%nat) = false →
  verificarToken req res next
  = res (mk_respuesta 401 "Formato de token no válido"
           "El formato debe ser: 'Bearer <token>'").
Proof.
  intros Hcab Hne Hmal.
  unfold verificarToken. rewrite Hcab. cbn [truthy default from_option id].
  rewrite (bool_decide_eq_false_2 _ Hne). cbn [negb].
  destruct Hmal as [Hb | Ht].
  - rewrite (bool_decide_eq_true_2 _ Hb). reflexivity.
  - rewrite Ht. cbn [negb]. rewrite orb_true_r. reflexivity.
Qed.

(** C6 (amended).  For every request: when the Authorization header is
    absent (or empty) the gate answers 401 "Falta cabecera Authorization";
    when the first space-separated field of the header is not exactly
    [Bearer], or the field after it is missing or empty, it answers 401
    "Formato de token no válido"; otherwise it hands the second field to
    [jwt.verify].  On every failure the answer is sent with [res] and
    [next] is not called; on success [next] receives the request with
    [req.user] carrying the [cliente_id] of the decoded token. *)
Theorem verificarToken_puerta req res next :
  (authorization req = None ∨ authorization req = Some "" →
   verificarToken req res next
   = res (mk_respuesta 401 "Falta cabecera Authorization"
            "Debes incluir 'Authorization: Bearer <token>' en la petición"))
  ∧ (∀ cabecera,
       authorization req = Some cabecera →
       cabecera ≠ "" →
       split " " cabecera !! 0%nat ≠ Some "Bearer"
       ∨ truthy (split " " cabecera !! 1%nat) = false →
       verificarToken req res next
       = res (mk_respuesta 401 "Formato de token no válido"
                "El formato debe ser: 'Bearer <token>'"))
  ∧ (∀ cabecera token resto,
       authorization req = Some cabecera →
       split " " cabecera = "Bearer" :: token :: resto →
       token ≠ "" →
       (∀ decoded,
          jwt_verify token JWT_SECRET = inr decoded →
          verificarToken req res next
          = next (mk_request (authorization req)
                    (Some (mk_user (pl_cliente_id decoded)
                             (pl_cliente_id decoded)
                             (pl_email decoded) (pl_nombre decoded)))))
       ∧ (∀ error,
            jwt_verify token JWT_SECRET = inl error →
            ∃ mensaje,
              verificarToken req res next
              = res (mk_respuesta 401 mensaje
                       "Por favor, inicia sesión nuevamente"))).
Proof.
  split; [| split].
  - intros Haus. apply verificarToken_sin_cabecera.
    destruct Haus as [-> | ->]; reflexivity.
  - intros cabecera. apply verificarToken_formato.
  - intros cabecera token resto Hcab Hsplit Htoken.
    rewrite (verificarToken_delegado _ _ _ _ _ _ Hcab Hsplit Htoken).
    split.
    + intros decoded ->. reflexivity.
    + intros error ->. eexists. reflexivity.
Qed.

(** C7.  For every token that reaches [jwt.verify]: when the library
    rejects it as expired ([TokenExpiredError]) the gate fails with "Token
    expirado", when it rejects its structure or signature
    ([JsonWebTokenError]) with "Token malformado", when its activation time
    is still to come ([NotBeforeError]) with "Token no es válido todavía";
    when the library accepts it, the [cliente_id] embedded in the token is
    what the request carries on. *)
Theorem verificarToken_veredicto req res next cabecera token resto :
  authorization req = Some cabecera →
  split " " cabecera = "Bearer" :: token :: resto →
  token ≠ "" →
  (∀ error,
     jwt_verify token JWT_SECRET = inl error →
     name error = "TokenExpiredError" →
     verificarToken req res next
     = res (mk_respuesta 401 "Token expirado"
              "Por favor, inicia sesión nuevamente"))
  ∧ (∀ error,
       jwt_verify token JWT_SECRET = inl error →
       name error = "JsonWebTokenError" →
       verificarToken req res next
       = res (mk_respuesta 401 "Token malformado"
                "Por favor, inicia sesión nuevamente"))
  ∧ (∀ error,
       jwt_verify token JWT_SECRET = inl error →
       name error = "NotBeforeError" →
       verificarToken req res next
       = res (mk_respuesta 401 "Token no es válido todavía"
                "Por favor, inicia sesión nuevamente"))
  ∧ (∀ decoded,
       jwt_verify token JWT_SECRET = inr decoded →
       ∃ peticion usuario,
         verificarToken req res next = next peticion
         ∧ req_user peticion = Some usuario
         ∧ u_cliente_id usuario = pl_cliente_id decoded
         ∧ u_id usuario = pl_cliente_id decoded).
Proof.
  intros Hcab Hsplit Htoken.
  rewrite (verificarToken_delegado _ _ _ _ _ _ Hcab Hsplit Htoken).
  repeat split.
  - intros error -> ->. reflexivity.
  - intros error -> ->. reflexivity.
  - intros error -> ->. reflexivity.
  - intros decoded ->. do 2 eexists. repeat split.
Qed.

End puerta_facts.

Section puerta_ejemplos.
Import AuthMiddleware Ejemplo.

(** C6 (as stated it fails).  The header [Bearer  abc] (two spaces) is
    prefixed by the scheme and carries a token, and the verifier at hand
    would accept any token; the gate still answers with the format error
    and the handler does not run: the token was never verified. *)
Lemma verificarToken_bearer_sin_delegar :
  String.prefix "Bearer " "Bearer  abc" = true
  ∧ (∀ token,
       @jwt_verify jwt_que_acepta_todo token (@JWT_SECRET jwt_que_acepta_todo)
       = inr (mk_payload (Some 1) None None))
  ∧ @ruta_protegida jwt_que_acepta_todo controlador
      (mk_request (Some "Bearer  abc") None)
    = mk_respuesta 401 "Formato de token no válido"
        "El formato debe ser: 'Bearer <token>'".
Proof. repeat split. Qed.

(** The four outcomes of the gate on concrete headers. *)
Lemma verificarToken_puerta_witness :
  @ruta_protegida jwt_de_prueba controlador (mk_request None None)
  = mk_respuesta 401 "Falta cabecera Authorization"
      "Debes incluir 'Authorization: Bearer <token>' en la petición"
  ∧ @ruta_protegida jwt_de_prueba controlador
      (mk_request (Some "Basic valido") None)
    = mk_respuesta 401 "Formato de token no válido"
        "El formato debe ser: 'Bearer <token>'"
  ∧ @ruta_protegida jwt_de_prueba controlador
      (mk_request (Some "Bearer valido") None)
    = controlador
        (mk_request (Some "Bearer valido")
           (Some (mk_user (Some 1) (Some 1) None None)))
  ∧ ∃ mensaje,
      @ruta_protegida jwt_de_prueba controlador
        (mk_request (Some "Bearer caducado") None)
      = mk_respuesta 401 mensaje "Por favor, inicia sesión nuevamente".
Proof.
  unfold ruta_protegida.
  split; [| split; [| split]].
  - apply (proj1 (@verificarToken_puerta jwt_de_prueba _
                    (mk_request None None) (λ r, r) controlador)).
    left. reflexivity.
  - apply (proj1 (proj2 (@verificarToken_puerta jwt_de_prueba _
                           (mk_request (Some "Basic valido") None)
                           (λ r, r) controlador))
             "Basic valido").
    + reflexivity.
    + discriminate.
    + left. discriminate.
  - apply (proj1 (proj2 (proj2 (@verificarToken_puerta jwt_de_prueba _
                                  (mk_request (Some "Bearer valido") None)
                                  (λ r, r) controlador))
                    "Bearer valido" "valido" []
                    eq_refl eq_refl ltac:(discriminate))
             (mk_payload (Some 1) None None)).
    reflexivity.
  - apply (proj2 (proj2 (proj2 (@verificarToken_puerta jwt_de_prueba _
                                  (mk_request (Some "Bearer caducado") None)
                                  (λ r, r) controlador))
                    "Bearer caducado" "caducado" []
                    eq_refl eq_refl ltac:(discriminate))
             (mk_jwt_error "TokenExpiredError" "jwt expired")).
    reflexivity.
Defined.

(** One header per verdict of the verifier. *)
Lemma verificarToken_veredicto_witness :
  @ruta_protegida jwt_de_prueba controlador
    (mk_request (Some "Bearer caducado") None)
  = mk_respuesta 401 "Token expirado" "Por favor, inicia sesión nuevamente"
  ∧ @ruta_protegida jwt_de_prueba controlador
      (mk_request (Some "Bearer roto") None)
    = mk_respuesta 401 "Token malformado"
        "Por favor, inicia sesión nuevamente"
  ∧ @ruta_protegida jwt_de_prueba controlador
      (mk_request (Some "Bearer prematuro") None)
    = mk_respuesta 401 "Token no es válido todavía"
        "Por favor, inicia sesión nuevamente"
  ∧ ∃ peticion usuario,
      @ruta_protegida jwt_de_prueba controlador
        (mk_request (Some "Bearer valido") None)
      = controlador peticion
      ∧ req_user peticion = Some usuario
      ∧ u_cliente_id usuario = Some 1
      ∧ u_id usuario = Some 1.
Proof.
  unfold ruta_protegida.
  split; [| split; [| split]].
  - apply (proj1 (@verificarToken_veredicto jwt_de_prueba _
                    (mk_request (Some "Bearer caducado") None)
                    (λ r, r) controlador "Bearer caducado" "caducado" []
                    eq_refl eq_refl ltac:(discriminate))
             (mk_jwt_error "TokenExpiredError" "jwt expired"));
      reflexivity.
  - apply (proj1 (proj2 (@verificarToken_veredicto jwt_de_prueba _
                           (mk_request (Some "Bearer roto") None)
                           (λ r, r) controlador "Bearer roto" "roto" []
                           eq_refl eq_refl ltac:(discriminate)))
             (mk_jwt_error "JsonWebTokenError" "jwt malformed"));
      reflexivity.
  - apply (proj1 (proj2 (proj2 (@verificarToken_veredicto jwt_de_prueba _
                                  (mk_request (Some "Bearer prematuro") None)
                                  (λ r, r) controlador
                                  "Bearer prematuro" "prematuro" []
                                  eq_refl eq_refl ltac:(discriminate))))
             (mk_jwt_error "NotBeforeError" "jwt not active"));
      reflexivity.
  - apply (proj2 (proj2 (proj2 (@verificarToken_veredicto jwt_de_prueba _
                                  (mk_request (Some "Bearer valido") None)
                                  (λ r, r) controlador
                                  "Bearer valido" "valido" []
                                  eq_refl eq_refl ltac:(discriminate))))
             (mk_payload (Some 1) None None)).
    reflexivity.
Defined.

End puerta_ejemplos.

(* ===================================================================== *)
(** * Login *)
(* ===================================================================== *)

Section login_facts.
Import AuthController.
Context `{Colaboradores}.


End login_facts.

Section login_ejemplos.
Import AuthController Ejemplo.



(** The right password for the same account logs in. *)
Example login_correcto :
  @login colaboradores_de_prueba "ana@x.com" "s3cret1"
  = mk_login_response 200 true "Login exitoso" (Some "token")
      (Some (mk_usuario_publico 1 "Ana" "ana@x.com")).
Proof. reflexivity. Qed.

End login_ejemplos.

(* ===================================================================== *)
(** * The cart *)
(* ===================================================================== *)

Section carrito_facts.
Import Frontend Ejemplo.

(** C10 (the code breaks it).  [agregarAlCarrito] checks the quantity
    against the stock but not against 1: adding zero units of a product
    puts an entry of quantity 0 in the cart, and adding a negative number
    an entry of negative quantity. *)
Theorem agregarAlCarrito_admite_cantidad_cero :
  e_carrito (sesion [Agregar 1 0] sesion_iniciada)
  = [mk_item 1 "Camiseta" 1999 0 5]
  ∧ ¬ carrito_valido (e_carrito (sesion [Agregar 1 0] sesion_iniciada))
  ∧ e_carrito (sesion [Agregar 2 (-3)] sesion_iniciada)
    = [mk_item 2 "Gorra" 950 (-3) 1].
Proof.
  split; [reflexivity |]. split; [| reflexivity].
  intros [Hrango _]. cbn in Hrango.
  apply Forall_cons_1 in Hrango as [[Hmin _] _]. cbn in Hmin. lia.
Qed.

Lemma con_cantidad_ids n (k : nat) (carrito : list item) :
  it_id <$> alter (con_cantidad n) k carrito = it_id <$> carrito.
Proof.
  rewrite (list_fmap_alter it_id (con_cantidad n) id).
  - apply list_alter_id. reflexivity.
  - apply Forall_forall. intros i _. reflexivity.
Qed.

Lemma invariante_con_cantidad e n (k : nat) i :
  invariante e →
  e_carrito e !! k = Some i →
  1 ≤ n → n ≤ it_stock i →
  invariante (con_carrito e (alter (con_cantidad n) k (e_carrito e))).
Proof.
  intros [[Hrango Hdup] Hstock] Hk Hmin Hmax.
  split; [split |]; cbn [con_carrito e_carrito e_productos].
  - apply Forall_alter; [exact Hrango |].
    intros x Hx _. rewrite Hk in Hx. injection Hx as <-.
    split; cbn [con_cantidad it_cantidad it_stock]; assumption.
  - rewrite con_cantidad_ids. exact Hdup.
  - apply Forall_alter; [exact Hstock |].
    intros x _ Hx. exact Hx.
Qed.

Lemma invariante_quitar e productoId :
  invariante e → invariante (quitarDelCarrito productoId e).
Proof.
  intros Hinv. unfold quitarDelCarrito.
  destruct (list_find _ (e_carrito e)) as [[index ?] |]; [| exact Hinv].
  destruct Hinv as [[Hrango Hdup] Hstock].
  split; [split |]; cbn [con_carrito e_carrito e_productos].
  - apply Forall_delete. exact Hrango.
  - rewrite list_fmap_delete.
    eapply sublist_NoDup; [exact Hdup | apply sublist_delete].
  - apply Forall_delete. exact Hstock.
Qed.

Lemma invariante_cambiar e productoId nuevaCantidad :
  invariante e → invariante (cambiarCantidad productoId nuevaCantidad e).
Proof.
  intros Hinv. unfold cambiarCantidad.
  case_bool_decide as Hmin; [apply invariante_quitar; exact Hinv |].
  destruct (list_find _ (e_carrito e)) as [[k i] |] eqn:Hfind;
    [| exact Hinv].
  case_bool_decide as Hmax; [exact Hinv |].
  apply list_find_Some in Hfind as (Hk & _ & _).
  apply (invariante_con_cantidad e nuevaCantidad k i Hinv Hk); lia.
Qed.

Lemma invariante_agregar e productoId cantidad :
  1 ≤ cantidad →
  invariante e → invariante (agregarAlCarrito productoId cantidad e).
Proof.
  intros Hpos Hinv. unfold agregarAlCarrito.
  destruct (estaLogueado e); cbn [negb]; [| exact Hinv].
  destruct (list_find _ (e_productos e)) as [[j producto] |] eqn:Hcat;
    [| exact Hinv].
  case_bool_decide as Hstock; [exact Hinv |].
  destruct (list_find _ (e_carrito e)) as [[k i] |] eqn:Hfind.
  - case_bool_decide as Hmax; [exact Hinv |].
    pose proof Hfind as (Hk & Hid & _)%list_find_Some.
    assert (it_stock i = c_stock producto) as Hsnap.
    { destruct Hinv as [_ Hsnaps].
      destruct (Forall_lookup_1 _ _ _ _ Hsnaps Hk) as (k' & p' & Hp' & ->).
      rewrite Hid, Hcat in Hp'. injection Hp' as _ <-. reflexivity. }
    destruct Hinv as [[Hrango Hdup] Hsnaps].
    pose proof (Forall_lookup_1 _ _ _ _ Hrango Hk) as [Hi1 _].
    apply (invariante_con_cantidad e _ k i); [| exact Hk | lia | lia].
    split; [split |]; assumption.
  - destruct Hinv as [[Hrango Hdup] Hsnaps].
    pose proof Hcat as (_ & Hid & _)%list_find_Some.
    apply list_find_None in Hfind.
    split; [split |]; cbn [con_carrito e_carrito e_productos].
    + apply Forall_app. split; [exact Hrango |].
      apply Forall_singleton. split; cbn [it_cantidad it_stock]; lia.
    + rewrite fmap_app. apply NoDup_app. split; [exact Hdup |].
      split; [| apply NoDup_singleton].
      intros x Hx Hnew. cbn in Hnew.
      apply list_elem_of_singleton in Hnew. subst x.
      apply list_elem_of_fmap in Hx as (i & Hi & Hin).
      rewrite Forall_forall in Hfind. apply (Hfind i Hin). congruence.
    + apply Forall_app. split; [exact Hsnaps |].
      apply Forall_singleton. exists j, producto.
      cbn [it_id it_stock]. rewrite Hid. split; [exact Hcat | reflexivity].
Qed.

Lemma invariante_ejecutar a e :
  accion_admisible a → invariante e → invariante (ejecutar a e).
Proof.
  destruct a as [productoId cantidad | productoId nuevaCantidad | productoId];
    cbn [accion_admisible ejecutar]; intros Hadm Hinv.
  - apply invariante_agregar; assumption.
  - apply invariante_cambiar; assumption.
  - apply invariante_quitar; assumption.
Qed.

(** With every addition of at least one unit, the cart stays valid
    through any session that starts from the empty cart. *)
Lemma sesion_carrito_valido acciones e :
  e_carrito e = [] →
  Forall accion_admisible acciones →
  carrito_valido (e_carrito (sesion acciones e)).
Proof.
  intros Hvacio Hadm.
  assert (invariante e) as Hinv.
  { unfold invariante, carrito_valido. rewrite Hvacio.
    repeat split; constructor. }
  clear Hvacio. revert e Hinv.
  induction Hadm as [|a acciones Ha _ IH]; intros e Hinv.
  - apply Hinv.
  - apply IH. apply invariante_ejecutar; assumption.
Qed.

End carrito_facts.

(* ===================================================================== *)
(** * More on the order model: what every call keeps *)
(* ===================================================================== *)

Section consistencia_facts.
Import PedidosModel Filas Ejemplo.

Global Instance solo_agrega_preorder : PreOrder solo_agrega.
Proof.
  split.
  - intros s. unfold solo_agrega. repeat split; reflexivity.
  - intros s1 s2 s3 (Hc1 & Hp1 & Hped1 & Hlin1 & Ht1)
      (Hc2 & Hp2 & Hped2 & Hlin2 & Ht2).
    unfold solo_agrega. repeat split; try congruence.
    + etransitivity; eassumption.
    + etransitivity; eassumption.
Qed.

Lemma bind_solo_agrega {A B} (m : query A) (f : A → query B) :
  (∀ s, solo_agrega s (m s).1) →
  (∀ a s, solo_agrega s (f a s).1) →
  ∀ s, solo_agrega s ((m ≫= f) s).1.
Proof.
  intros Hm Hf s. unfold mbind, query_bind.
  specialize (Hm s). destruct (m s) as [s1 [e | a]]; [exact Hm |].
  etransitivity; [exact Hm | apply Hf].
Qed.

Lemma bind_conserva (P : db → Prop) {A B} (m : query A) (f : A → query B) :
  (∀ s, P s → P (m s).1) →
  (∀ a s, P s → P (f a s).1) →
  ∀ s, P s → P ((m ≫= f) s).1.
Proof.
  intros Hm Hf s Hs. unfold mbind, query_bind.
  specialize (Hm s Hs). destruct (m s) as [s1 [e | a]]; [exact Hm |].
  apply Hf. exact Hm.
Qed.

Lemma insert_pedidos_solo_agrega c s : solo_agrega s (insert_pedidos c s).1.
Proof.
  unfold insert_pedidos. destruct (existe_cliente s c); [| reflexivity].
  unfold solo_agrega. cbn. repeat split; try reflexivity.
  apply prefix_app_r. reflexivity.
Qed.

Lemma insert_pedidos_productos_solo_agrega pid prod cant s :
  solo_agrega s (insert_pedidos_productos pid prod cant s).1.
Proof.
  unfold insert_pedidos_productos.
  destruct (existe_pedido s pid); cbn [negb]; [| reflexivity].
  destruct (existe_producto s prod); cbn [negb]; [| reflexivity].
  unfold solo_agrega. cbn. repeat split; try reflexivity.
  apply prefix_app_r. reflexivity.
Qed.

Lemma agregar_productos_solo_agrega solicitadas : ∀ pid agregados s,
  solo_agrega s (agregar_productos pid solicitadas agregados s).1.
Proof.
  induction solicitadas as [|r rs IH]; intros pid agregados s.
  - reflexivity.
  - cbn [agregar_productos]. apply bind_solo_agrega.
    + intros s0. unfold agregarProductoAPedido. apply bind_solo_agrega.
      * apply insert_pedidos_productos_solo_agrega.
      * intros a s1. reflexivity.
    + intros a s0. apply IH.
Qed.

Lemma try_catch_rethrow {A} (m : query A) s :
  try_catch m (λ error, throw error) s = m s.
Proof. unfold try_catch, throw. destruct (m s) as [s' [e | a]]; reflexivity. Qed.

Lemma insert_pedidos_consistente c s :
  db_consistente s → db_consistente (insert_pedidos c s).1.
Proof.
  intros Hs. unfold insert_pedidos.
  destruct (existe_cliente s c) eqn:Hc; [| exact Hs].
  destruct Hs as (Hnd & Hlt & Hnd' & Hlt' & Hcli & Href).
  apply bool_decide_eq_true in Hc.
  unfold db_consistente. cbn. rewrite fmap_app. cbn.
  split; [| split; [| split; [| split; [| split]]]].
  - apply NoDup_app. split; [exact Hnd |]. split; [| apply NoDup_singleton].
    intros x Hx Hnew. apply list_elem_of_singleton in Hnew. subst x.
    apply list_elem_of_fmap in Hx as (p & Hp & Hin).
    rewrite Forall_forall in Hlt. specialize (Hlt p Hin). lia.
  - apply Forall_app. split.
    + eapply Forall_impl; [exact Hlt |]. intros p Hp. cbn in Hp. lia.
    + apply Forall_singleton. cbn. lia.
  - exact Hnd'.
  - exact Hlt'.
  - apply Forall_app. split; [exact Hcli |].
    apply Forall_singleton. exact Hc.
  - eapply Forall_impl; [exact Href |]. intros f [Hf1 Hf2].
    split; [| exact Hf2]. apply elem_of_app. left. exact Hf1.
Qed.

Lemma insert_pedidos_productos_consistente pid prod cant s :
  db_consistente s →
  db_consistente (insert_pedidos_productos pid prod cant s).1.
Proof.
  intros Hs. unfold insert_pedidos_productos.
  destruct (existe_pedido s pid) eqn:Hp; cbn [negb]; [| exact Hs].
  destruct (existe_producto s prod) eqn:Hpr; cbn [negb]; [| exact Hs].
  destruct Hs as (Hnd & Hlt & Hnd' & Hlt' & Hcli & Href).
  apply bool_decide_eq_true in Hp. apply bool_decide_eq_true in Hpr.
  unfold db_consistente. cbn. rewrite fmap_app. cbn.
  split; [| split; [| split; [| split; [| split]]]].
  - exact Hnd.
  - exact Hlt.
  - apply NoDup_app. split; [exact Hnd' |]. split; [| apply NoDup_singleton].
    intros x Hx Hnew. apply list_elem_of_singleton in Hnew. subst x.
    apply list_elem_of_fmap in Hx as (f & Hf & Hin).
    rewrite Forall_forall in Hlt'. specialize (Hlt' f Hin). lia.
  - apply Forall_app. split.
    + eapply Forall_impl; [exact Hlt' |]. intros f Hf. cbn in Hf. lia.
    + apply Forall_singleton. cbn. lia.
  - exact Hcli.
  - apply Forall_app. split; [exact Href |].
    apply Forall_singleton. cbn. split; assumption.
Qed.

Lemma agregar_productos_consistente solicitadas : ∀ pid agregados s,
  db_consistente s →
  db_consistente (agregar_productos pid solicitadas agregados s).1.
Proof.
  induction solicitadas as [|r rs IH]; intros pid agregados s Hs.
  - exact Hs.
  - cbn [agregar_productos]. revert s Hs. apply bind_conserva.
    + intros s Hs. unfold agregarProductoAPedido.
      revert s Hs. apply bind_conserva.
      * intros s. apply insert_pedidos_productos_consistente.
      * intros a s Hs. exact Hs.
    + intros a s Hs. apply IH. exact Hs.
Qed.

(** X1.  Whatever [crear] is given and whether it returns an order or
    throws, it leaves the keys and references of the store sound: unique
    identifiers below the counters, no order without a client, no line
    without its order and its product. *)
Theorem crear_conserva_consistencia s c solicitadas :
  db_consistente s → db_consistente (crear c solicitadas s).1.
Proof.
  intros Hs. unfold crear. rewrite try_catch_rethrow.
  revert s Hs. apply bind_conserva.
  - intros s Hs. unfold crearPedido. revert s Hs. apply bind_conserva.
    + intros s. apply insert_pedidos_consistente.
    + intros a s Hs. exact Hs.
  - intros pedido s Hs. revert s Hs. apply bind_conserva.
    + intros s. apply agregar_productos_consistente.
    + intros a s Hs. exact Hs.
Qed.

(** A call that fails half-way still leaves a sound store. *)
Lemma crear_conserva_consistencia_witness :
  db_consistente (crear 1 con_producto_inexistente tienda).1.
Proof.
  apply (crear_conserva_consistencia tienda 1 con_producto_inexistente).
  unfold db_consistente. cbn. repeat split; constructor.
Defined.

(** X2.  [crear] only adds rows at the end of [pedidos] and
    [pedidos_productos]: the rows that were there stay as they were, and the
    clients and the products (their stock included) are never written,
    whether the call succeeds or throws. *)
Theorem crear_solo_agrega s c solicitadas :
  solo_agrega s (crear c solicitadas s).1.
Proof.
  unfold crear. rewrite try_catch_rethrow.
  revert s. apply bind_solo_agrega.
  - intros s. unfold crearPedido. apply bind_solo_agrega.
    + apply insert_pedidos_solo_agrega.
    + intros a s1. reflexivity.
  - intros pedido s. apply bind_solo_agrega.
    + apply agregar_productos_solo_agrega.
    + intros a s1. reflexivity.
Qed.

(** X3.  There is no idempotency: placing the same request twice creates
    two orders with consecutive identifiers, and both headers and both
    sets of lines are in the store. *)
Theorem crear_dos_veces_crea_dos_pedidos s c solicitadas :
  existe_cliente s c = true →
  productos_existen s solicitadas →
  ∃ s1 primero s2 segundo,
    crear c solicitadas s = (s1, inr primero)
    ∧ crear c solicitadas s1 = (s2, inr segundo)
    ∧ pc_id segundo = pc_id primero + 1
    ∧ pedidos s2
      = pedidos s
        ++ [mk_pedido (pc_id primero) c pendiente (current_timestamp s);
            mk_pedido (pc_id segundo) c pendiente (current_timestamp s)]
    ∧ length (pedidos_productos s2)
      = (length (pedidos_productos s) + 2 * length solicitadas)%nat.
Proof.
  intros Hc Hex.
  do 4 eexists. split; [apply crear_ok; assumption |].
  split; [apply crear_ok; [exact Hc | exact Hex] |].
  cbn [pc_id con_filas con_cabecera pedidos pedidos_productos auto_pedidos
       cabecera_de current_timestamp].
  split; [reflexivity |]. split.
  - rewrite <- app_assoc. reflexivity.
  - rewrite !length_app, !filas_de_length. lia.
Qed.

Lemma crear_dos_veces_crea_dos_pedidos_witness :
  ∃ s1 primero s2 segundo,
    crear 1 dos_lineas tienda = (s1, inr primero)
    ∧ crear 1 dos_lineas s1 = (s2, inr segundo)
    ∧ pc_id segundo = pc_id primero + 1
    ∧ pedidos s2
      = [mk_pedido (pc_id primero) 1 pendiente 1000;
         mk_pedido (pc_id segundo) 1 pendiente 1000]
    ∧ length (pedidos_productos s2) = 4%nat.
Proof.
  apply (crear_dos_veces_crea_dos_pedidos tienda 1 dos_lineas).
  - reflexivity.
  - repeat constructor.
Defined.

End consistencia_facts.

(* ===================================================================== *)
(** * More on the order model: reading back what was written *)
(* ===================================================================== *)

Section lecturas_facts.
Import PedidosModel Filas Ejemplo.

Lemma filter_ninguno {A} (P : A → Prop) `{∀ x, Decision (P x)} (l : list A) :
  Forall (λ x, ¬ P x) l → filter P l = [].
Proof.
  induction 1 as [|x l Hx _ IH]; [reflexivity |].
  rewrite filter_cons_False by exact Hx. exact IH.
Qed.

Lemma filter_todos {A} (P : A → Prop) `{∀ x, Decision (P x)} (l : list A) :
  Forall P l → filter P l = l.
Proof.
  induction 1 as [|x l Hx _ IH]; [reflexivity |].
  rewrite filter_cons_True by exact Hx. rewrite IH. reflexivity.
Qed.

(** With unique keys, selecting on a key that is present gives exactly
    one row. *)
Lemma filter_clave_unica {A} (f : A → Z) (l : list A) (k : Z) :
  NoDup (f <$> l) → k ∈ f <$> l →
  ∃ x, filter (λ y, f y = k) l = [x] ∧ f x = k ∧ x ∈ l.
Proof.
  induction l as [|y l IH]; intros Hnd Hin; [inversion Hin |].
  cbn in Hnd. apply NoDup_cons in Hnd as [Hy Hnd].
  destruct (decide (f y = k)) as [Heq | Hne].
  - exists y. rewrite filter_cons_True by exact Heq.
    split; [| split; [exact Heq | left]].
    f_equal. apply filter_ninguno. apply Forall_forall.
    intros z Hz Hfz. apply Hy. rewrite Heq, <- Hfz.
    apply list_elem_of_fmap_2. exact Hz.
  - rewrite filter_cons_False by exact Hne.
    cbn in Hin. apply elem_of_cons in Hin as [Hk | Hin]; [congruence |].
    destruct (IH Hnd Hin) as (x & Hx & Hfx & Hxl).
    exists x. split; [exact Hx |]. split; [exact Hfx | right; exact Hxl].
Qed.

(** X4.  With unique order identifiers, [obtenerPedidoPorId] never
    fails and never writes; it returns a row exactly when that row is the
    order with the identifier asked for, and [undefined] exactly when no order
    has it. *)
Theorem obtenerPedidoPorId_correcto s id :
  NoDup (p_id <$> pedidos s) →
  ∃ r,
    obtenerPedidoPorId id s = (s, inr r)
    ∧ (∀ p, r = Some p ↔ p ∈ pedidos s ∧ p_id p = id)
    ∧ (r = None ↔ id ∉ p_id <$> pedidos s).
Proof.
  intros Hnd. eexists. split; [reflexivity |].
  destruct (decide (id ∈ p_id <$> pedidos s)) as [Hin | Hout].
  - destruct (filter_clave_unica p_id (pedidos s) id Hnd Hin)
      as (x & Hx & Hid & Hxl).
    rewrite Hx. cbn. split.
    + intros p. split.
      * intros [= <-]. split; assumption.
      * intros [Hp Hpid]. f_equal.
        assert (p ∈ filter (λ y, p_id y = id) (pedidos s)) as Hpf
          by (apply list_elem_of_filter; split; assumption).
        rewrite Hx in Hpf. apply list_elem_of_singleton in Hpf.
        symmetry. exact Hpf.
    + split; [discriminate | intros Hno; contradiction].
  - rewrite filter_ninguno.
    + cbn. split.
      * intros p. split; [discriminate |].
        intros [Hp Hpid]. exfalso. apply Hout. rewrite <- Hpid.
        apply list_elem_of_fmap_2. exact Hp.
      * split; [intros _; exact Hout | reflexivity].
    + apply Forall_forall. intros p Hp Hpid. apply Hout.
      rewrite <- Hpid. apply list_elem_of_fmap_2. exact Hp.
Qed.

Lemma obtenerPedidoPorId_correcto_witness :
  ∃ r,
    obtenerPedidoPorId 4 con_historial = (con_historial, inr r)
    ∧ (∀ p, r = Some p ↔ p ∈ pedidos con_historial ∧ p_id p = 4)
    ∧ (r = None ↔ 4 ∉ p_id <$> pedidos con_historial).
Proof.
  apply (obtenerPedidoPorId_correcto con_historial 4).
  cbn. compute_done.
Defined.

(** Rows written before a new order do not carry its identifier. *)
Lemma pedidos_previos_otro_id s :
  db_consistente s →
  Forall (λ p, ¬ p_id p = auto_pedidos s) (pedidos s).
Proof.
  intros (_ & Hlt & _). eapply Forall_impl; [exact Hlt |].
  intros p Hp. cbn in Hp. lia.
Qed.

Lemma lineas_previas_otro_pedido s :
  db_consistente s →
  Forall (λ f, ¬ pp_pedido_id f = auto_pedidos s) (pedidos_productos s).
Proof.
  intros (_ & Hlt & _ & _ & _ & Href).
  eapply Forall_impl; [exact Href |].
  intros f [Hf _] Heq. cbn in Hf.
  apply list_elem_of_fmap in Hf as (p & Hp & Hin).
  rewrite Forall_forall in Hlt. specialize (Hlt p Hin). cbn in Hlt. lia.
Qed.

(** X5.  Write then read: on a sound store, right after [crear]
    returned an order, [obtenerPedidoPorId] of the identifier it returned
    gives the header of that order, owned by the client, [pendiente], dated
    with the server clock. *)
Theorem crear_luego_obtenerPedidoPorId s c solicitadas :
  db_consistente s →
  existe_cliente s c = true →
  productos_existen s solicitadas →
  ∃ s' pedido,
    crear c solicitadas s = (s', inr pedido)
    ∧ obtenerPedidoPorId (pc_id pedido) s'
      = (s', inr (Some (mk_pedido (pc_id pedido) c pendiente
                          (current_timestamp s)))).
Proof.
  intros Hs Hc Hex. do 2 eexists.
  split; [apply crear_ok; assumption |].
  unfold obtenerPedidoPorId, select_pedido_por_id, mbind, query_bind,
    mret, query_ret.
  cbn [pc_id con_filas con_cabecera pedidos cabecera_de].
  rewrite filter_app, (filter_ninguno _ _ (pedidos_previos_otro_id s Hs)).
  rewrite filter_cons_True by reflexivity.
  reflexivity.
Qed.

Lemma crear_luego_obtenerPedidoPorId_witness :
  ∃ s' pedido,
    crear 1 dos_lineas tienda = (s', inr pedido)
    ∧ obtenerPedidoPorId (pc_id pedido) s'
      = (s', inr (Some (mk_pedido (pc_id pedido) 1 pendiente 1000))).
Proof.
  apply (crear_luego_obtenerPedidoPorId tienda 1 dos_lineas).
  - unfold db_consistente. cbn. repeat split; constructor.
  - reflexivity.
  - repeat constructor.
Defined.

End lecturas_facts.

Section lineas_facts.
Import PedidosModel Filas.
Context `{OrdenDelMotor}.

(** The join of freshly written lines with a catalogue of unique
    product identifiers: one row per line. *)
Lemma join_filas_de (catalogo : list producto) pid n solicitadas :
  NoDup (pr_id <$> catalogo) →
  Forall (λ r, producto_id r ∈ pr_id <$> catalogo) solicitadas →
  ∃ filas : list linea_con_producto,
    (pp ← filas_de pid n solicitadas;
     pr ← filter (λ pr, pr_id pr = pp_producto_id pp) catalogo;
     [fila_con_producto pp pr]) = filas
    ∧ (λ l, (lp_id l, lp_producto_id l, lp_cantidad l)) <$> filas
      = (λ f, (pp_id f, pp_producto_id f, pp_cantidad f))
          <$> filas_de pid n solicitadas
    ∧ Forall (λ l, ∃ pr, pr ∈ catalogo ∧ pr_id pr = lp_producto_id l
                         ∧ lp_producto_nombre l = pr_nombre pr
                         ∧ lp_producto_precio l = pr_precio pr) filas.
Proof.
  intros Hnd Hex. revert n.
  induction Hex as [|r rs Hr _ IH]; intros n.
  - exists []. repeat split; constructor.
  - destruct (IH (n + 1)) as (filas & Heq & Hcont & Hcat).
    destruct (filter_clave_unica pr_id catalogo (producto_id r) Hnd Hr)
      as (pr & Hpr & Hprid & Hprin).
    exists (fila_con_producto
              (mk_pedido_producto n pid (producto_id r) (cantidad r)) pr
            :: filas).
    cbn [filas_de]. rewrite bind_cons. cbn [pp_producto_id].
    rewrite Hpr, Heq. cbn.
    split; [reflexivity |]. split.
    + rewrite Hcont, Hprid. reflexivity.
    + constructor; [| exact Hcat].
      exists pr. cbn. repeat split; assumption.
Qed.

(** X6.  Write then read the lines: on a sound store whose products have
    unique identifiers, right after [crear] returned an order,
    [obtenerLineasDePedido] of its identifier gives, in whatever order the
    engine returns them, exactly one row per line [crear] returned, with
    that line's identifier, product and quantity, hence the requested
    products and quantities, each with the name and price the catalogue
    holds for the product. *)
Theorem crear_luego_obtenerLineasDePedido s c solicitadas :
  db_consistente s →
  NoDup (pr_id <$> productos s) →
  existe_cliente s c = true →
  productos_existen s solicitadas →
  ∃ s' pedido filas,
    crear c solicitadas s = (s', inr pedido)
    ∧ obtenerLineasDePedido (pc_id pedido) s' = (s', inr filas)
    ∧ (λ l, (lp_id l, lp_producto_id l, lp_cantidad l)) <$> filas
      ≡ₚ (λ l, (lin_id l, lin_producto_id l, lin_cantidad l))
           <$> pc_productos pedido
    ∧ (λ l, mk_linea_solicitada (lp_producto_id l) (lp_cantidad l)) <$> filas
      ≡ₚ solicitadas
    ∧ length filas = length solicitadas
    ∧ Forall (λ l, ∃ pr, pr ∈ productos s ∧ pr_id pr = lp_producto_id l
                         ∧ lp_producto_nombre l = pr_nombre pr
                         ∧ lp_producto_precio l = pr_precio pr) filas.
Proof.
  intros Hs Hnd Hc Hex.
  assert (Forall (λ r, producto_id r ∈ pr_id <$> productos s) solicitadas)
    as Hex'.
  { eapply Forall_impl; [exact Hex |]. intros r Hr. cbn in Hr.
    apply bool_decide_eq_true in Hr. exact Hr. }
  destruct (join_filas_de (productos s) (auto_pedidos s)
              (auto_pedidos_productos s) solicitadas Hnd Hex')
    as (filas & Heq & Hcont & Hcat).
  exists (con_filas (con_cabecera s c)
            (filas_de (auto_pedidos s) (auto_pedidos_productos s) solicitadas)).
  eexists. exists (orden_del_motor filas).
  pose proof (orden_del_motor_permuta filas) as Hperm.
  split; [apply crear_ok; assumption |].
  cbn [pc_id pc_productos].
  split; [| split; [| split; [| split]]].
  - unfold obtenerLineasDePedido, select_lineas_de_pedido,
      join_lineas_productos.
    cbn [con_filas con_cabecera pedidos_productos productos].
    rewrite filter_app, (filter_ninguno _ _ (lineas_previas_otro_pedido s Hs)).
    rewrite (filter_todos _ _ (filas_de_pedido _ _ _)).
    cbn [app]. unfold fila_con_producto in Heq. rewrite Heq. reflexivity.
  - rewrite Hperm, Hcont, <- list_fmap_compose. reflexivity.
  - rewrite Hperm.
    assert ((λ l, mk_linea_solicitada (lp_producto_id l) (lp_cantidad l))
              <$> filas
            = (λ t : Z * Z * Z, mk_linea_solicitada t.1.2 t.2)
                <$> ((λ l, (lp_id l, lp_producto_id l, lp_cantidad l))
                       <$> filas)) as ->
      by (rewrite <- list_fmap_compose; reflexivity).
    rewrite Hcont, <- list_fmap_compose.
    pose proof (filas_de_contenido (auto_pedidos s)
                  (auto_pedidos_productos s) solicitadas) as Hsol.
    match goal with
    | |- ?L ≡ₚ _ => replace L with solicitadas by (symmetry; exact Hsol)
    end.
    reflexivity.
  - rewrite Hperm.
    rewrite <- (length_fmap (λ l, (lp_id l, lp_producto_id l, lp_cantidad l))).
    rewrite Hcont, length_fmap. apply filas_de_length.
  - apply Forall_forall. intros l Hl. rewrite Hperm in Hl.
    rewrite Forall_forall in Hcat. apply Hcat. exact Hl.
Qed.

End lineas_facts.

Section lineas_ejemplos.
Import PedidosModel Filas Ejemplo.

(** The example shop read back through the engine that answers
    backwards. *)
Lemma crear_luego_obtenerLineasDePedido_witness :
  ∃ s' pedido filas,
    crear 1 dos_lineas tienda = (s', inr pedido)
    ∧ @obtenerLineasDePedido motor_al_reves (pc_id pedido) s'
      = (s', inr filas)
    ∧ (λ l, (lp_id l, lp_producto_id l, lp_cantidad l)) <$> filas
      ≡ₚ (λ l, (lin_id l, lin_producto_id l, lin_cantidad l))
           <$> pc_productos pedido
    ∧ (λ l, mk_linea_solicitada (lp_producto_id l) (lp_cantidad l)) <$> filas
      ≡ₚ dos_lineas
    ∧ length filas = 2%nat
    ∧ Forall (λ l, ∃ pr, pr ∈ productos tienda ∧ pr_id pr = lp_producto_id l
                         ∧ lp_producto_nombre l = pr_nombre pr
                         ∧ lp_producto_precio l = pr_precio pr) filas.
Proof.
  apply (@crear_luego_obtenerLineasDePedido motor_al_reves tienda 1
           dos_lineas).
  - unfold db_consistente. cbn. repeat split; constructor.
  - cbn. compute_done.
  - reflexivity.
  - repeat constructor.
Defined.

(** The two engines return the same rows in opposite orders. *)
Example obtenerLineasDePedido_dos_ordenes :
  (@obtenerLineasDePedido motor_en_orden 1
     (crear 1 dos_lineas tienda).1).2
  = inr [mk_linea_con_producto 1 2 1 "Camiseta" 1999;
         mk_linea_con_producto 2 1 2 "Gorra" 950]
  ∧ (@obtenerLineasDePedido motor_al_reves 1
       (crear 1 dos_lineas tienda).1).2
    = inr [mk_linea_con_producto 2 1 2 "Gorra" 950;
           mk_linea_con_producto 1 2 1 "Camiseta" 1999].
Proof. split; reflexivity. Qed.

End lineas_ejemplos.


(* ===================================================================== *)
(** * More on the order model: [actualizarEstado] and the listing *)
(* ===================================================================== *)

Section estado_facts.
Import PedidosModel Filas Ejemplo.

Lemma aplicar_estado_id id nuevo p : p_id (aplicar_estado id nuevo p) = p_id p.
Proof. unfold aplicar_estado. destruct (decide _); reflexivity. Qed.

Lemma aplicar_estado_cliente id nuevo p :
  p_cliente_id (aplicar_estado id nuevo p) = p_cliente_id p.
Proof. unfold aplicar_estado. destruct (decide _); reflexivity. Qed.

Lemma aplicar_estado_fecha id nuevo p :
  p_fecha (aplicar_estado id nuevo p) = p_fecha p.
Proof. unfold aplicar_estado. destruct (decide _); reflexivity. Qed.

Lemma filter_fmap_conserva {A} (P : A → Prop) `{∀ x, Decision (P x)}
    (g : A → A) (l : list A) :
  (∀ x, P (g x) ↔ P x) → filter P (g <$> l) = g <$> filter P l.
Proof.
  intros Hg. induction l as [|x l IH]; [reflexivity |].
  cbn [fmap list_fmap]. rewrite !filter_cons.
  destruct (decide (P (g x))) as [Hy | Hn], (decide (P x)) as [Hy' | Hn'].
  - cbn [fmap list_fmap]. f_equal. exact IH.
  - exfalso. apply Hn', Hg, Hy.
  - exfalso. apply Hn, Hg, Hy'.
  - exact IH.
Qed.

Lemma actualizarEstado_run s id nuevo :
  actualizarEstado id nuevo s
  = (mk_db (clientes s) (productos s) (aplicar_estado id nuevo <$> pedidos s)
       (pedidos_productos s) (auto_pedidos s) (auto_pedidos_productos s)
       (current_timestamp s),
     inr (mk_cambio_estado id nuevo)).
Proof. reflexivity. Qed.

(** X7.  [actualizarEstado] rewrites the state of the order with the
    given identifier and nothing else: clients, products and lines are
    untouched, every order keeps its identifier, owner and date, reading the
    order back gives the same row with the new state, and reading any other
    order gives what it gave before. *)
Theorem actualizarEstado_solo_cambia_estado s id nuevo :
  ∃ s',
    actualizarEstado id nuevo s = (s', inr (mk_cambio_estado id nuevo))
    ∧ clientes s' = clientes s
    ∧ productos s' = productos s
    ∧ pedidos_productos s' = pedidos_productos s
    ∧ p_id <$> pedidos s' = p_id <$> pedidos s
    ∧ p_cliente_id <$> pedidos s' = p_cliente_id <$> pedidos s
    ∧ p_fecha <$> pedidos s' = p_fecha <$> pedidos s
    ∧ (obtenerPedidoPorId id s').2
      = match (obtenerPedidoPorId id s).2 with
        | inr antes => inr (con_estado nuevo <$> antes)
        | inl error => inl error
        end
    ∧ (∀ otro, otro ≠ id →
         (obtenerPedidoPorId otro s').2 = (obtenerPedidoPorId otro s).2).
Proof.
  eexists. split; [apply actualizarEstado_run |].
  cbn [clientes productos pedidos pedidos_productos].
  split; [reflexivity |]. split; [reflexivity |]. split; [reflexivity |].
  split; [| split; [| split; [| split]]].
  - rewrite <- list_fmap_compose. apply list_fmap_ext.
    intros i p _. apply aplicar_estado_id.
  - rewrite <- list_fmap_compose. apply list_fmap_ext.
    intros i p _. apply aplicar_estado_cliente.
  - rewrite <- list_fmap_compose. apply list_fmap_ext.
    intros i p _. apply aplicar_estado_fecha.
  - unfold obtenerPedidoPorId, select_pedido_por_id, mbind, query_bind,
      mret, query_ret.
    cbn [snd pedidos].
    rewrite (filter_fmap_conserva (λ p, p_id p = id))
      by (intros p; rewrite aplicar_estado_id; reflexivity).
    rewrite list_lookup_fmap.
    destruct (filter _ (pedidos s) !! 0%nat) as [p |] eqn:Hp; [| reflexivity].
    cbn. do 2 f_equal.
    apply list_elem_of_lookup_2, list_elem_of_filter in Hp as [Hid _].
    unfold aplicar_estado. rewrite decide_True by exact Hid. reflexivity.
  - intros otro Hotro.
    unfold obtenerPedidoPorId, select_pedido_por_id, mbind, query_bind,
      mret, query_ret.
    cbn [snd pedidos].
    rewrite (filter_fmap_conserva (λ p, p_id p = otro))
      by (intros p; rewrite aplicar_estado_id; reflexivity).
    rewrite list_lookup_fmap.
    destruct (filter _ (pedidos s) !! 0%nat) as [p |] eqn:Hp; [| reflexivity].
    cbn. do 2 f_equal.
    apply list_elem_of_lookup_2, list_elem_of_filter in Hp as [Hid _].
    unfold aplicar_estado. rewrite decide_False by congruence. reflexivity.
Qed.

(** Order 3 of the example history is marked as sent; order 4 is not
    touched. *)
Lemma actualizarEstado_solo_cambia_estado_witness :
  ∃ s',
    actualizarEstado 3 enviado con_historial
    = (s', inr (mk_cambio_estado 3 enviado))
    ∧ (obtenerPedidoPorId 3 s').2 = inr (Some (mk_pedido 3 1 enviado 300))
    ∧ (obtenerPedidoPorId 4 s').2 = inr (Some (mk_pedido 4 1 pagado 200)).
Proof.
  destruct (actualizarEstado_solo_cambia_estado con_historial 3 enviado)
    as (s' & Hrun & _ & _ & _ & _ & _ & _ & Hmismo & Hotros).
  exists s'. split; [exact Hrun |]. split.
  - rewrite Hmismo. reflexivity.
  - rewrite (Hotros 4) by discriminate. reflexivity.
Defined.

(** X8.  [actualizarEstado] does not tell a missing order from an
    existing one: for an identifier no order has, the store is left exactly
    as it was and the call still returns the confirmation, without
    error. *)
Theorem actualizarEstado_pedido_inexistente s id nuevo :
  id ∉ p_id <$> pedidos s →
  actualizarEstado id nuevo s = (s, inr (mk_cambio_estado id nuevo)).
Proof.
  intros Hout. rewrite actualizarEstado_run. f_equal.
  assert (aplicar_estado id nuevo <$> pedidos s = pedidos s) as ->.
  { rewrite <- (list_fmap_id (pedidos s)) at 2.
    apply list_fmap_ext. intros i p Hp.
    unfold aplicar_estado. rewrite decide_False; [reflexivity |].
    intros Hid. apply Hout. rewrite <- Hid.
    apply list_elem_of_fmap_2. eapply list_elem_of_lookup_2. exact Hp. }
  destruct s. reflexivity.
Qed.

Lemma actualizarEstado_pedido_inexistente_witness :
  actualizarEstado 99 pagado con_historial
  = (con_historial, inr (mk_cambio_estado 99 pagado)).
Proof.
  apply (actualizarEstado_pedido_inexistente con_historial 99 pagado).
  cbn. compute_done.
Defined.

(** X9.  The last state written wins: two updates of the same order in a
    row leave the store as the second one alone would. *)
Theorem actualizarEstado_ultimo_gana s id primero segundo :
  actualizarEstado id segundo (actualizarEstado id primero s).1
  = actualizarEstado id segundo s.
Proof.
  rewrite !actualizarEstado_run. cbn [fst clientes productos pedidos
    pedidos_productos auto_pedidos auto_pedidos_productos current_timestamp].
  do 2 f_equal.
  rewrite <- list_fmap_compose. apply list_fmap_ext.
  intros i p _. cbn. unfold aplicar_estado.
  destruct (decide (p_id p = id)) as [Hid | Hno].
  - cbn. rewrite decide_True by exact Hid. reflexivity.
  - rewrite decide_False by exact Hno. reflexivity.
Qed.

(** Sorting on [fecha] commutes with a rewrite of rows that keeps each
    [fecha]. *)
Lemma list_merge_fmap (g : pedido → pedido) :
  (∀ p, p_fecha (g p) = p_fecha p) →
  ∀ l1 l2, list_merge fecha_desc (g <$> l1) (g <$> l2)
           = g <$> list_merge fecha_desc l1 l2.
Proof.
  intros Hg. induction l1 as [|x1 l1 IH1]; intros l2.
  - cbn [fmap list_fmap]. rewrite !list_merge_nil_l. reflexivity.
  - induction l2 as [|x2 l2 IH2].
    + cbn [fmap list_fmap]. rewrite !list_merge_nil_r. reflexivity.
    + cbn [fmap list_fmap]. rewrite !list_merge_cons.
      destruct (decide (fecha_desc (g x1) (g x2))) as [Hy | Hn],
        (decide (fecha_desc x1 x2)) as [Hy' | Hn'].
      * cbn [fmap list_fmap]. f_equal. apply (IH1 (x2 :: l2)).
      * exfalso. apply Hn'. unfold fecha_desc in *. rewrite !Hg in Hy. exact Hy.
      * exfalso. apply Hn. unfold fecha_desc in *. rewrite !Hg. exact Hy'.
      * cbn [fmap list_fmap]. f_equal. exact IH2.
Qed.

Lemma merge_list_to_stack_fmap (g : pedido → pedido) :
  (∀ p, p_fecha (g p) = p_fecha p) →
  ∀ st (l : list pedido),
    merge_list_to_stack fecha_desc (pila_fmap g st) (g <$> l)
    = pila_fmap g (merge_list_to_stack fecha_desc st l).
Proof.
  intros Hg. induction st as [|[l' |] st IH]; intros l; cbn.
  - reflexivity.
  - f_equal. rewrite list_merge_fmap by exact Hg. apply IH.
  - reflexivity.
Qed.

Lemma merge_stack_fmap (g : pedido → pedido) :
  (∀ p, p_fecha (g p) = p_fecha p) →
  ∀ st, merge_stack fecha_desc (pila_fmap g st)
        = g <$> merge_stack fecha_desc st.
Proof.
  intros Hg. induction st as [|[l' |] st IH]; cbn.
  - reflexivity.
  - rewrite <- list_merge_fmap by exact Hg. f_equal. exact IH.
  - exact IH.
Qed.

Lemma merge_sort_aux_fmap (g : pedido → pedido) :
  (∀ p, p_fecha (g p) = p_fecha p) →
  ∀ (l : list pedido) st,
    merge_sort_aux fecha_desc (pila_fmap g st) (g <$> l)
    = g <$> merge_sort_aux fecha_desc st l.
Proof.
  intros Hg. induction l as [|x l IH]; intros st; cbn.
  - apply merge_stack_fmap. exact Hg.
  - rewrite <- IH. f_equal.
    apply (merge_list_to_stack_fmap g Hg st [x]).
Qed.

Lemma merge_sort_fmap (g : pedido → pedido) (l : list pedido) :
  (∀ p, p_fecha (g p) = p_fecha p) →
  merge_sort fecha_desc (g <$> l) = g <$> merge_sort fecha_desc l.
Proof. intros Hg. apply (merge_sort_aux_fmap g Hg l []). Qed.

(** X10.  Changing the state of an order does not hide, add or reorder
    anything in a client's history: the listing after the update is the
    listing before it with the new state on that order. *)
Theorem actualizarEstado_luego_listar s id nuevo clienteId :
  (obtenerPedidosDeCliente clienteId (actualizarEstado id nuevo s).1).2
  = match (obtenerPedidosDeCliente clienteId s).2 with
    | inr antes => inr (aplicar_estado id nuevo <$> antes)
    | inl error => inl error
    end.
Proof.
  rewrite actualizarEstado_run.
  unfold obtenerPedidosDeCliente, select_pedidos_de_cliente.
  cbn [fst snd pedidos]. f_equal.
  rewrite (filter_fmap_conserva (λ p, p_cliente_id p = clienteId))
    by (intros p; rewrite aplicar_estado_cliente; reflexivity).
  apply merge_sort_fmap. intros p. apply aplicar_estado_fecha.
Qed.

(** X11.  After [crear] returned an order, the listing of its client
    holds that order and is one longer than before, and the listing of every
    other client is what it was. *)
Theorem crear_luego_listar s c solicitadas :
  existe_cliente s c = true →
  productos_existen s solicitadas →
  ∃ s' pedido antes despues,
    crear c solicitadas s = (s', inr pedido)
    ∧ obtenerPedidosDeCliente c s = (s, inr antes)
    ∧ obtenerPedidosDeCliente c s' = (s', inr despues)
    ∧ mk_pedido (pc_id pedido) c pendiente (current_timestamp s) ∈ despues
    ∧ length despues = S (length antes)
    ∧ (∀ otro, otro ≠ c →
         (obtenerPedidosDeCliente otro s').2
         = (obtenerPedidosDeCliente otro s).2).
Proof.
  intros Hc Hex. do 4 eexists.
  split; [apply crear_ok; assumption |].
  split; [reflexivity |]. split; [reflexivity |].
  cbn [pc_id con_filas con_cabecera pedidos cabecera_de].
  rewrite filter_app, (filter_cons_True (λ p, p_cliente_id p = c))
    by reflexivity.
  rewrite filter_nil.
  split; [| split].
  - rewrite merge_sort_Permutation. apply elem_of_app. right. left.
  - rewrite !merge_sort_Permutation, length_app. cbn. lia.
  - intros otro Hotro.
    unfold obtenerPedidosDeCliente, select_pedidos_de_cliente.
    cbn [snd con_filas con_cabecera pedidos]. f_equal.
    rewrite filter_app, (filter_cons_False (λ p, p_cliente_id p = otro))
      by (cbn; congruence).
    rewrite filter_nil, app_nil_r. reflexivity.
Qed.

Lemma crear_luego_listar_witness :
  ∃ s' pedido antes despues,
    crear 1 dos_lineas con_historial = (s', inr pedido)
    ∧ obtenerPedidosDeCliente 1 con_historial = (con_historial, inr antes)
    ∧ obtenerPedidosDeCliente 1 s' = (s', inr despues)
    ∧ mk_pedido (pc_id pedido) 1 pendiente 1000 ∈ despues
    ∧ length despues = S (length antes)
    ∧ (∀ otro, otro ≠ 1 →
         (obtenerPedidosDeCliente otro s').2
         = (obtenerPedidosDeCliente otro con_historial).2).
Proof.
  apply (crear_luego_listar con_historial 1 dos_lineas).
  - reflexivity.
  - repeat constructor.
Defined.

End estado_facts.

(* ===================================================================== *)
(** * More on the auth gate *)
(* ===================================================================== *)

Section puerta_mas_facts.
Import AuthMiddleware.
Context `{JsonWebToken} {R : Type}.
Implicit Types (req : request) (res : respuesta → R) (next : request → R).

(** X12.  The gate has two outcomes only: it answers 401 itself, or it
    calls [next], and it calls [next] only for a header [Bearer <token>]
    whose token [jwt.verify] accepted, handing on the request with the
    decoded [cliente_id].  No request gets through unverified. *)
Theorem verificarToken_solo_pasa_verificados req res next :
  (∃ r, verificarToken req res next = res r ∧ status r = 401)
  ∨ (∃ cabecera token resto decoded,
       authorization req = Some cabecera
       ∧ split " " cabecera = "Bearer" :: token :: resto
       ∧ token ≠ ""
       ∧ jwt_verify token JWT_SECRET = inr decoded
       ∧ verificarToken req res next
         = next (mk_request (authorization req)
                   (Some (mk_user (pl_cliente_id decoded)
                            (pl_cliente_id decoded)
                            (pl_email decoded) (pl_nombre decoded))))).
Proof.
  destruct (truthy (authorization req)) eqn:Htruthy.
  - destruct (authorization req) as [cabecera |] eqn:Hcab; [| discriminate].
    cbn in Htruthy. apply negb_true_iff, bool_decide_eq_false in Htruthy.
    destruct (decide (split " " cabecera !! 0%nat = Some "Bearer")) as [Hb | Hb].
    + destruct (truthy (split " " cabecera !! 1%nat)) eqn:Htoken.
      * destruct (split " " cabecera) as [|b [|token resto]] eqn:Hsplit;
          try discriminate.
        cbn in Hb. injection Hb as ->.
        cbn in Htoken. apply negb_true_iff, bool_decide_eq_false in Htoken.
        pose proof (verificarToken_delegado req res next cabecera token resto
                      Hcab Hsplit Htoken) as Hdel.
        destruct (jwt_verify token JWT_SECRET) as [error | decoded] eqn:Hver.
        -- left. eexists. split; [exact Hdel | reflexivity].
        -- right. exists cabecera, token, resto, decoded.
           rewrite Hcab in Hdel.
           split; [reflexivity |]. split; [exact Hsplit |].
           split; [exact Htoken |]. split; [exact Hver | exact Hdel].
      * left. eexists.
        split; [apply (verificarToken_formato req res next cabecera Hcab
                         Htruthy); right; exact Htoken
               | reflexivity].
    + left. eexists.
      split; [apply (verificarToken_formato req res next cabecera Hcab
                       Htruthy); left; exact Hb
             | reflexivity].
  - left. eexists.
    split; [apply verificarToken_sin_cabecera; exact Htruthy | reflexivity].
Qed.

End puerta_mas_facts.

Section cabecera_facts.
Import AuthMiddleware Frontend.

Lemma split_first_sin_separador sep (t : string) :
  sep ∉ caracteres t → split_first sep t = (t, []).
Proof.
  induction t as [|c t IH]; intros Hsep; [reflexivity |].
  cbn [caracteres] in Hsep. apply not_elem_of_cons in Hsep as [Hc Ht].
  cbn [split_first]. rewrite (IH Ht).
  rewrite decide_False by congruence. reflexivity.
Qed.

Lemma split_first_hasta_separador sep (t resto : string) :
  sep ∉ caracteres t →
  split_first sep (String.append t (String sep resto))
  = (t, split sep resto).
Proof.
  induction t as [|c t IH]; intros Hsep.
  - change (String.append "" (String sep resto)) with (String sep resto).
    cbn [split_first]. unfold split.
    destruct (split_first sep resto) as [w ws].
    rewrite decide_True by reflexivity. reflexivity.
  - cbn [caracteres] in Hsep. apply not_elem_of_cons in Hsep as [Hc Ht].
    change (String.append (String c t) (String sep resto))
      with (String c (String.append t (String sep resto))).
    cbn [split_first]. rewrite (IH Ht).
    rewrite decide_False by congruence. reflexivity.
Qed.

Lemma split_bearer (t : string) :
  split " " (String.append "Bearer " t) = "Bearer" :: split " " t.
Proof.
  change (String.append "Bearer " t)
    with (String.append "Bearer" (String " " t)).
  unfold split at 1.
  rewrite split_first_hasta_separador by (cbn; compute_done).
  reflexivity.
Qed.

Context `{JsonWebToken} {R : Type}.
Implicit Types (req : request) (res : respuesta → R) (next : request → R).

(** X13.  The header the page builds is the header the gate reads: for a
    stored token that is not empty and has no space in it, a request
    carrying [getAuthHeaders().Authorization] reaches [jwt.verify] with
    exactly that token, and the outcome of the gate is the verdict on it. *)
Theorem getAuthHeaders_llega_a_jwt_verify e token req res next :
  e_token e = Some token →
  token ≠ "" →
  " "%char ∉ caracteres token →
  authorization req = cab_authorization (getAuthHeaders e) →
  verificarToken req res next
  = match jwt_verify token JWT_SECRET with
    | inr decoded =>
        next (mk_request (authorization req)
                (Some (mk_user (pl_cliente_id decoded) (pl_cliente_id decoded)
                         (pl_email decoded) (pl_nombre decoded))))
    | inl error =>
        res (mk_respuesta 401
               (if bool_decide (name error = "TokenExpiredError")
                then "Token expirado"
                else if bool_decide (name error = "JsonWebTokenError")
                then "Token malformado"
                else if bool_decide (name error = "NotBeforeError")
                then "Token no es válido todavía"
                else "Token no válido")
               "Por favor, inicia sesión nuevamente")
    end.
Proof.
  intros Htoken Hne Hsin Hcab.
  unfold getAuthHeaders in Hcab. rewrite Htoken in Hcab.
  cbn [cab_authorization] in Hcab.
  rewrite (bool_decide_eq_false_2 _ Hne) in Hcab.
  apply (verificarToken_delegado req res next _ token [] Hcab); [| exact Hne].
  rewrite split_bearer. unfold split.
  rewrite split_first_sin_separador by exact Hsin. reflexivity.
Qed.

(** X14.  Only the field after [Bearer] counts: whatever follows a second
    space in the header is ignored, and the gate decides on the token
    before it. *)
Theorem verificarToken_ignora_lo_que_sigue req res next token sobrante :
  token ≠ "" →
  " "%char ∉ caracteres token →
  authorization req
  = Some (String.append "Bearer "
            (String.append token (String " " sobrante))) →
  verificarToken req res next
  = match jwt_verify token JWT_SECRET with
    | inr decoded =>
        next (mk_request (authorization req)
                (Some (mk_user (pl_cliente_id decoded) (pl_cliente_id decoded)
                         (pl_email decoded) (pl_nombre decoded))))
    | inl error =>
        res (mk_respuesta 401
               (if bool_decide (name error = "TokenExpiredError")
                then "Token expirado"
                else if bool_decide (name error = "JsonWebTokenError")
                then "Token malformado"
                else if bool_decide (name error = "NotBeforeError")
                then "Token no es válido todavía"
                else "Token no válido")
               "Por favor, inicia sesión nuevamente")
    end.
Proof.
  intros Hne Hsin Hcab.
  apply (verificarToken_delegado req res next _ token (split " " sobrante)
           Hcab); [| exact Hne].
  rewrite split_bearer. unfold split at 1.
  rewrite split_first_hasta_separador by exact Hsin. reflexivity.
Qed.

End cabecera_facts.

Section cabecera_ejemplos.
Import AuthMiddleware Frontend Ejemplo.

(** The page holds the token [valido]; the handler gets client 1. *)
Lemma getAuthHeaders_llega_a_jwt_verify_witness :
  @ruta_protegida jwt_de_prueba controlador
    (mk_request
       (cab_authorization
          (getAuthHeaders (mk_estado (Some "Ana") (Some "valido") [] [])))
       None)
  = controlador
      (mk_request (Some "Bearer valido")
         (Some (mk_user (Some 1) (Some 1) None None))).
Proof.
  unfold ruta_protegida.
  apply (@getAuthHeaders_llega_a_jwt_verify jwt_de_prueba _
           (mk_estado (Some "Ana") (Some "valido") [] []) "valido"
           (mk_request (Some "Bearer valido") None) (λ r, r) controlador).
  - reflexivity.
  - discriminate.
  - cbn. compute_done.
  - reflexivity.
Defined.

(** [Bearer caducado y algo mas] is judged as the token [caducado]. *)
Lemma verificarToken_ignora_lo_que_sigue_witness :
  @ruta_protegida jwt_de_prueba controlador
    (mk_request (Some "Bearer caducado y algo mas") None)
  = mk_respuesta 401 "Token expirado" "Por favor, inicia sesión nuevamente".
Proof.
  unfold ruta_protegida.
  apply (@verificarToken_ignora_lo_que_sigue jwt_de_prueba _
           (mk_request (Some "Bearer caducado y algo mas") None)
           (λ r, r) controlador "caducado" "y algo mas").
  - discriminate.
  - cbn. compute_done.
  - reflexivity.
Defined.

End cabecera_ejemplos.

(* ===================================================================== *)
(** * More on login and registration *)
(* ===================================================================== *)

Section acceso_facts.
Import AuthController.
Context `{Colaboradores} `{ColaboradoresRegistro}.

(** X15.  [login] answers 200 only when the account with that email
    exists and bcrypt accepted the password against its stored hash; the
    token is then the one signed for that account's identifier and the user
    shown is that account.  Every other answer is 401 or 500 and carries
    neither token nor user. *)
Theorem login_exito_solo_con_password_valido email password :
  (lr_status (login email password) = 200 ∧
   ∃ usuario token,
     buscarPorEmail email = inr (Some usuario)
     ∧ bcrypt_compare password (cl_password usuario) = inr true
     ∧ jwt_sign (cl_id usuario) = inr token
     ∧ login email password
       = mk_login_response 200 true "Login exitoso" (Some token)
           (Some (mk_usuario_publico (cl_id usuario) (cl_nombre usuario)
                    (cl_email usuario))))
  ∨ ((lr_status (login email password) = 401
      ∨ lr_status (login email password) = 500)
     ∧ lr_success (login email password) = false
     ∧ lr_token (login email password) = None
     ∧ lr_usuario (login email password) = None).
Proof.
  unfold login.
  destruct (buscarPorEmail email) as [error | [usuario |]] eqn:Hbuscar.
  - right. cbn. auto.
  - destruct (bcrypt_compare password (cl_password usuario))
      as [error | [|]] eqn:Hcompare.
    + right. cbn. auto.
    + destruct (jwt_sign (cl_id usuario)) as [error | token] eqn:Hsign.
      * right. cbn. auto.
      * left. split; [reflexivity |]. exists usuario, token. auto.
    + right. cbn. auto.
  - right. cbn. auto.
Qed.

(** X16.  Unlike [login], [register] tells whether an email has an
    account: for a registered email it answers 400 "El email ya está
    registrado" whatever the name and password, and for an email without
    account it never answers 400. *)
Theorem register_revela_email_registrado
    nombre1 email1 password1 nombre2 email2 password2 usuario :
  buscarPorEmail email1 = inr (Some usuario) →
  buscarPorEmail email2 = inr None →
  register nombre1 email1 password1
  = mk_login_response 400 false "El email ya está registrado" None None
  ∧ lr_status (register nombre2 email2 password2) ≠ 400.
Proof.
  intros Hhay Hnadie. unfold register. rewrite Hhay, Hnadie.
  split; [reflexivity |].
  destruct (bcrypt_hash password2 10) as [? | hashed]; [discriminate |].
  destruct (crearCliente nombre2 email2 hashed) as [? | insertId];
    [discriminate |].
  destruct (jwt_sign insertId); discriminate.
Qed.

(** X17.  [register] answers 201 only for an email without account and
    after the client was created with what [bcrypt.hash(password, 10)]
    returned in the password column; the token is signed for the identifier
    the insert returned and the same identifier is shown to the user. *)
Theorem register_exito_guarda_hash nombre email password :
  lr_status (register nombre email password) = 201 →
  ∃ hashedPassword insertId token,
    buscarPorEmail email = inr None
    ∧ bcrypt_hash password 10 = inr hashedPassword
    ∧ crearCliente nombre email hashedPassword = inr insertId
    ∧ jwt_sign insertId = inr token
    ∧ register nombre email password
      = mk_login_response 201 true "Usuario registrado exitosamente"
          (Some token) (Some (mk_usuario_publico insertId nombre email)).
Proof.
  unfold register.
  destruct (buscarPorEmail email) as [? | [? |]]; try discriminate.
  destruct (bcrypt_hash password 10) as [? | hashed]; [discriminate |].
  destruct (crearCliente nombre email hashed) as [? | insertId] eqn:Hcrear;
    [discriminate |].
  destruct (jwt_sign insertId) as [? | token] eqn:Hsign; [discriminate |].
  intros _. exists hashed, insertId, token. auto.
Qed.

End acceso_facts.

Section acceso_ejemplos.
Import AuthController Ejemplo.

(** Ana's email is taken, [nueva@x.com] is free. *)
Lemma register_revela_email_registrado_witness :
  @register colaboradores_de_prueba registro_de_prueba
    "Ana" "ana@x.com" "s3cret1"
  = mk_login_response 400 false "El email ya está registrado" None None
  ∧ lr_status (@register colaboradores_de_prueba registro_de_prueba
                 "Eva" "nueva@x.com" "clave") ≠ 400.
Proof.
  apply (@register_revela_email_registrado colaboradores_de_prueba
           registro_de_prueba "Ana" "ana@x.com" "s3cret1"
           "Eva" "nueva@x.com" "clave" ana); reflexivity.
Defined.

Lemma register_exito_guarda_hash_witness :
  ∃ hashedPassword insertId token,
    @buscarPorEmail colaboradores_de_prueba "nueva@x.com" = inr None
    ∧ @bcrypt_hash registro_de_prueba "clave" 10 = inr hashedPassword
    ∧ @crearCliente registro_de_prueba "Eva" "nueva@x.com" hashedPassword
      = inr insertId
    ∧ @jwt_sign colaboradores_de_prueba insertId = inr token
    ∧ @register colaboradores_de_prueba registro_de_prueba
        "Eva" "nueva@x.com" "clave"
      = mk_login_response 201 true "Usuario registrado exitosamente"
          (Some token) (Some (mk_usuario_publico insertId "Eva" "nueva@x.com")).
Proof.
  apply (@register_exito_guarda_hash colaboradores_de_prueba
           registro_de_prueba "Eva" "nueva@x.com" "clave").
  reflexivity.
Defined.

End acceso_ejemplos.

(* ===================================================================== *)
(** * More on the cart *)
(* ===================================================================== *)

Section carrito_mas_facts.
Import Frontend Ejemplo.

(** X18.  When every [agregarAlCarrito] adds at least one unit, the cart
    that started empty is valid after any sequence of additions, changes
    and removals: every entry has between 1 and its recorded stock units,
    and no product has two entries. *)
Theorem sesion_admisible_carrito_valido acciones e :
  e_carrito e = [] →
  Forall accion_admisible acciones →
  carrito_valido (e_carrito (sesion acciones e)).
Proof.
  intros Hvacio Hadm.
  assert (invariante e) as Hinv.
  { unfold invariante, carrito_valido. rewrite Hvacio.
    repeat split; constructor. }
  clear Hvacio. revert e Hinv.
  induction Hadm as [|a acciones Ha _ IH]; intros e Hinv.
  - apply Hinv.
  - apply IH. apply invariante_ejecutar; assumption.
Qed.

(** Add two, add two more, lower to three, remove the other product. *)
Lemma sesion_admisible_carrito_valido_witness :
  carrito_valido
    (e_carrito (sesion [Agregar 1 2; Agregar 2 1; Agregar 1 2; Cambiar 1 3;
                        Quitar 2] sesion_iniciada)).
Proof.
  apply (sesion_admisible_carrito_valido
           [Agregar 1 2; Agregar 2 1; Agregar 1 2; Cambiar 1 3; Quitar 2]
           sesion_iniciada).
  - reflexivity.
  - repeat constructor; cbn; lia.
Defined.

Lemma acotado_con_cantidad e n (k : nat) i :
  carrito_acotado e →
  e_carrito e !! k = Some i →
  n ≤ it_stock i →
  carrito_acotado (con_carrito e (alter (con_cantidad n) k (e_carrito e))).
Proof.
  intros (Hmax & Hdup & Hstock) Hk Hn.
  split; [| split]; cbn [con_carrito e_carrito e_productos].
  - apply Forall_alter; [exact Hmax |].
    intros x Hx _. rewrite Hk in Hx. injection Hx as <-. exact Hn.
  - rewrite con_cantidad_ids. exact Hdup.
  - apply Forall_alter; [exact Hstock |]. intros x _ Hx. exact Hx.
Qed.

Lemma acotado_quitar e productoId :
  carrito_acotado e → carrito_acotado (quitarDelCarrito productoId e).
Proof.
  intros Hinv. unfold quitarDelCarrito.
  destruct (list_find _ (e_carrito e)) as [[index ?] |]; [| exact Hinv].
  destruct Hinv as (Hmax & Hdup & Hstock).
  split; [| split]; cbn [con_carrito e_carrito e_productos].
  - apply Forall_delete. exact Hmax.
  - rewrite list_fmap_delete.
    eapply sublist_NoDup; [exact Hdup | apply sublist_delete].
  - apply Forall_delete. exact Hstock.
Qed.

Lemma acotado_ejecutar a e :
  carrito_acotado e → carrito_acotado (ejecutar a e).
Proof.
  intros Hinv.
  destruct a as [productoId cantidad | productoId nuevaCantidad | productoId];
    cbn [ejecutar].
  - unfold agregarAlCarrito.
    destruct (estaLogueado e); cbn [negb]; [| exact Hinv].
    destruct (list_find _ (e_productos e)) as [[j producto] |] eqn:Hcat;
      [| exact Hinv].
    case_bool_decide as Hstock; [exact Hinv |].
    destruct (list_find _ (e_carrito e)) as [[k i] |] eqn:Hfind.
    + case_bool_decide as Hmax; [exact Hinv |].
      pose proof Hfind as (Hk & Hid & _)%list_find_Some.
      apply (acotado_con_cantidad e _ k i Hinv Hk).
      destruct Hinv as (_ & _ & Hsnaps).
      destruct (Forall_lookup_1 _ _ _ _ Hsnaps Hk) as (k' & p' & Hp' & ->).
      rewrite Hid, Hcat in Hp'. injection Hp' as _ <-. lia.
    + destruct Hinv as (Hmax & Hdup & Hsnaps).
      pose proof Hcat as (_ & Hid & _)%list_find_Some.
      apply list_find_None in Hfind.
      split; [| split]; cbn [con_carrito e_carrito e_productos].
      * apply Forall_app. split; [exact Hmax |].
        apply Forall_singleton. cbn [it_cantidad it_stock]. lia.
      * rewrite fmap_app. apply NoDup_app. split; [exact Hdup |].
        split; [| apply NoDup_singleton].
        intros x Hx Hnew. cbn in Hnew.
        apply list_elem_of_singleton in Hnew. subst x.
        apply list_elem_of_fmap in Hx as (i & Hi & Hin).
        rewrite Forall_forall in Hfind. apply (Hfind i Hin). congruence.
      * apply Forall_app. split; [exact Hsnaps |].
        apply Forall_singleton. exists j, producto.
        cbn [it_id it_stock]. rewrite Hid. split; [exact Hcat | reflexivity].
  - unfold cambiarCantidad.
    case_bool_decide as Hmin; [apply acotado_quitar; exact Hinv |].
    destruct (list_find _ (e_carrito e)) as [[k i] |] eqn:Hfind;
      [| exact Hinv].
    case_bool_decide as Hmax; [exact Hinv |].
    apply list_find_Some in Hfind as (Hk & _ & _).
    apply (acotado_con_cantidad e nuevaCantidad k i Hinv Hk). lia.
  - apply acotado_quitar. exact Hinv.
Qed.

(** X19.  For integer quantities of any sign (zero and negative ones
    included; a quantity that is not a number, as [parseInt] of an empty
    field gives, is outside this model), a cart that started empty never
    holds two entries for one product, never holds more units of a product
    than the stock it recorded, and the stock an entry recorded is the
    stock of the catalogue product with that identifier. *)
Theorem sesion_carrito_acotado acciones e :
  e_carrito e = [] →
  carrito_acotado (sesion acciones e).
Proof.
  intros Hvacio.
  assert (carrito_acotado e) as Hinv.
  { unfold carrito_acotado. rewrite Hvacio. repeat split; constructor. }
  clear Hvacio. revert e Hinv.
  induction acciones as [|a acciones IH]; intros e Hinv.
  - exact Hinv.
  - apply IH. apply acotado_ejecutar. exact Hinv.
Qed.

Lemma sesion_carrito_acotado_witness :
  carrito_acotado (sesion [Agregar 1 0; Agregar 1 9; Agregar 1 5; Cambiar 1 6]
                     sesion_iniciada).
Proof.
  apply (sesion_carrito_acotado
           [Agregar 1 0; Agregar 1 9; Agregar 1 5; Cambiar 1 6]
           sesion_iniciada).
  reflexivity.
Defined.

Lemma list_find_cons {A} (P : A → Prop) `{∀ x, Decision (P x)} x (l : list A) :
  list_find P (x :: l)
  = if decide (P x) then Some (0%nat, x)
    else prod_map S id <$> list_find P l.
Proof. reflexivity. Qed.

Lemma quitar_es_filtrar productoId (carrito : list item) :
  NoDup (it_id <$> carrito) →
  match list_find (λ i, it_id i = productoId) carrito with
  | Some (index, _) => delete index carrito
  | None => carrito
  end = filter (λ i, it_id i ≠ productoId) carrito.
Proof.
  induction carrito as [|x l IH]; intros Hdup; [reflexivity |].
  cbn in Hdup. apply NoDup_cons in Hdup as [Hx Hdup].
  rewrite list_find_cons.
  destruct (decide (it_id x = productoId)) as [Hid | Hno].
  - rewrite filter_cons_False by (intros Hc; apply Hc; exact Hid).
    cbn [delete list_delete].
    symmetry. apply filter_todos. apply Forall_forall.
    intros y Hy Hyid. apply Hx. rewrite Hid, <- Hyid.
    apply list_elem_of_fmap_2. exact Hy.
  - rewrite filter_cons_True by exact Hno. rewrite <- (IH Hdup).
    destruct (list_find _ l) as [[k y] |]; reflexivity.
Qed.

(** X20.  In a cart with one entry per product, [quitarDelCarrito]
    removes the product: the cart afterwards is the cart before without the
    entry of that product, the other entries unchanged and in order; for a
    product that is not in the cart nothing changes. *)
Theorem quitarDelCarrito_quita_el_producto productoId e :
  NoDup (it_id <$> e_carrito e) →
  quitarDelCarrito productoId e
  = con_carrito e (filter (λ i, it_id i ≠ productoId) (e_carrito e))
  ∧ (productoId ∉ it_id <$> e_carrito (quitarDelCarrito productoId e))
  ∧ (productoId ∉ it_id <$> e_carrito e → quitarDelCarrito productoId e = e).
Proof.
  intros Hdup.
  assert (quitarDelCarrito productoId e
          = con_carrito e (filter (λ i, it_id i ≠ productoId) (e_carrito e)))
    as Heq.
  { rewrite <- (quitar_es_filtrar productoId (e_carrito e) Hdup).
    unfold quitarDelCarrito.
    destruct (list_find _ (e_carrito e)) as [[k y] |]; [reflexivity |].
    destruct e; reflexivity. }
  split; [exact Heq |]. split.
  - rewrite Heq. cbn [con_carrito e_carrito].
    intros (i & Hid & Hin)%list_elem_of_fmap.
    apply list_elem_of_filter in Hin as [Hno _]. congruence.
  - intros Hout. rewrite Heq.
    rewrite filter_todos; [destruct e; reflexivity |].
    apply Forall_forall. intros i Hi Hid. apply Hout. rewrite <- Hid.
    apply list_elem_of_fmap_2. exact Hi.
Qed.

Lemma quitarDelCarrito_quita_el_producto_witness :
  let e := sesion [Agregar 1 2; Agregar 2 1] sesion_iniciada in
  quitarDelCarrito 1 e
  = con_carrito e (filter (λ i, it_id i ≠ 1) (e_carrito e))
  ∧ (1 ∉ it_id <$> e_carrito (quitarDelCarrito 1 e))
  ∧ (1 ∉ it_id <$> e_carrito e → quitarDelCarrito 1 e = e).
Proof.
  apply (quitarDelCarrito_quita_el_producto 1
           (sesion [Agregar 1 2; Agregar 2 1] sesion_iniciada)).
  cbn. compute_done.
Defined.

Lemma cambiar_es_reescribir productoId n (carrito : list item) i :
  NoDup (it_id <$> carrito) →
  i ∈ carrito → it_id i = productoId →
  ∃ k, list_find (λ j, it_id j = productoId) carrito = Some (k, i)
       ∧ alter (con_cantidad n) k carrito
         = (λ j, if decide (it_id j = productoId) then con_cantidad n j else j)
             <$> carrito.
Proof.
  induction carrito as [|x l IH]; intros Hdup Hin Hid; [inversion Hin |].
  cbn in Hdup. apply NoDup_cons in Hdup as [Hx Hdup].
  rewrite list_find_cons.
  destruct (decide (it_id x = productoId)) as [Hxid | Hno].
  - assert (x = i) as ->.
    { apply elem_of_cons in Hin as [-> | Hin]; [reflexivity |].
      exfalso. apply Hx. rewrite Hxid, <- Hid.
      apply list_elem_of_fmap_2. exact Hin. }
    exists 0%nat. split; [reflexivity |].
    cbn. rewrite decide_True by exact Hid. f_equal.
    rewrite <- (list_fmap_id l) at 1. apply list_fmap_ext.
    intros k y Hy. rewrite decide_False; [reflexivity |].
    intros Hyid. apply Hx. rewrite Hid, <- Hyid.
    apply list_elem_of_fmap_2. eapply list_elem_of_lookup_2. exact Hy.
  - apply elem_of_cons in Hin as [-> | Hin]; [congruence |].
    destruct (IH Hdup Hin Hid) as (k & Hfind & Halter).
    exists (S k). rewrite Hfind. split; [reflexivity |].
    cbn. rewrite decide_False by exact Hno. f_equal. exact Halter.
Qed.

(** X21.  In a cart with one entry per product, [cambiarCantidad] of a
    product in the cart to a quantity of at least 1: within the recorded
    stock it sets that quantity on the product's entry and leaves every
    other entry as it was; above the recorded stock it changes nothing. *)
Theorem cambiarCantidad_fija_la_cantidad productoId nuevaCantidad e i :
  NoDup (it_id <$> e_carrito e) →
  i ∈ e_carrito e →
  it_id i = productoId →
  1 ≤ nuevaCantidad →
  cambiarCantidad productoId nuevaCantidad e
  = if decide (nuevaCantidad ≤ it_stock i)
    then con_carrito e
           ((λ j, if decide (it_id j = productoId)
                  then con_cantidad nuevaCantidad j else j) <$> e_carrito e)
    else e.
Proof.
  intros Hdup Hin Hid Hmin.
  destruct (cambiar_es_reescribir productoId nuevaCantidad (e_carrito e) i
              Hdup Hin Hid) as (k & Hfind & Halter).
  unfold cambiarCantidad.
  rewrite bool_decide_eq_false_2 by lia.
  rewrite Hfind.
  destruct (decide (nuevaCantidad ≤ it_stock i)) as [Hok | Hmas].
  - rewrite bool_decide_eq_false_2 by lia. rewrite Halter. reflexivity.
  - rewrite bool_decide_eq_true_2 by lia. reflexivity.
Qed.

Lemma cambiarCantidad_fija_la_cantidad_witness :
  let e := sesion [Agregar 1 2; Agregar 2 1] sesion_iniciada in
  cambiarCantidad 1 4 e
  = con_carrito e
      ((λ j, if decide (it_id j = 1) then con_cantidad 4 j else j)
         <$> e_carrito e).
Proof.
  apply (cambiarCantidad_fija_la_cantidad 1 4
           (sesion [Agregar 1 2; Agregar 2 1] sesion_iniciada)
           (mk_item 1 "Camiseta" 1999 2 5)).
  - cbn. compute_done.
  - cbn. left.
  - reflexivity.
  - lia.
Defined.

(** X22.  After [cerrarSesion] the cart is empty and stays empty:
    without a session no action on the cart has any effect. *)
Theorem cerrarSesion_bloquea_el_carrito acciones e :
  sesion acciones (cerrarSesion e) = cerrarSesion e
  ∧ e_carrito (cerrarSesion e) = []
  ∧ estaLogueado (cerrarSesion e) = false.
Proof.
  split; [| split; reflexivity].
  induction acciones as [|a acciones IH]; [reflexivity |].
  cbn [sesion foldl]. fold (sesion acciones (ejecutar a (cerrarSesion e))).
  assert (ejecutar a (cerrarSesion e) = cerrarSesion e) as ->; [| exact IH].
  destruct a as [productoId cantidad | productoId nuevaCantidad | productoId];
    cbn [ejecutar].
  - reflexivity.
  - unfold cambiarCantidad. case_bool_decide; reflexivity.
  - reflexivity.
Qed.

End carrito_mas_facts.

Section acumular_facts.
Import Frontend Ejemplo.

Lemma list_find_alter_conserva {A} (P : A → Prop) `{∀ x, Decision (P x)}
    (f : A → A) (l : list A) (k : nat) (i : A) :
  (∀ x, P x → P (f x)) →
  list_find P l = Some (k, i) →
  list_find P (alter f k l) = Some (k, f i).
Proof.
  intros Hf (Hk & Hi & Hmin)%list_find_Some.
  apply list_find_Some. split; [| split].
  - rewrite list_lookup_alter_eq, Hk. reflexivity.
  - apply Hf. exact Hi.
  - intros j y Hj Hlt. rewrite list_lookup_alter_ne in Hj by lia.
    apply (Hmin j y Hj Hlt).
Qed.

Lemma list_find_al_final {A} (P : A → Prop) `{∀ x, Decision (P x)}
    (l : list A) (x : A) :
  list_find P l = None → P x →
  list_find P (l ++ [x]) = Some (length l, x).
Proof.
  intros Hnone%list_find_None Hx.
  apply list_find_Some. split; [| split].
  - apply list_lookup_middle. reflexivity.
  - exact Hx.
  - intros j y Hj Hlt. rewrite lookup_app_l in Hj by exact Hlt.
    rewrite Forall_forall in Hnone. apply Hnone.
    eapply list_elem_of_lookup_2. exact Hj.
Qed.

(** [agregarAlCarrito] once the session, the catalogue and the first
    stock check are passed. *)
Lemma agregarAlCarrito_run productoId cantidad e j producto :
  estaLogueado e = true →
  list_find (λ p, c_id p = productoId) (e_productos e) = Some (j, producto) →
  cantidad ≤ c_stock producto →
  agregarAlCarrito productoId cantidad e
  = match list_find (λ i, it_id i = productoId) (e_carrito e) with
    | Some (k, i) =>
        if bool_decide (it_cantidad i + cantidad > c_stock producto) then e
        else con_carrito e
               (alter (con_cantidad (it_cantidad i + cantidad)) k (e_carrito e))
    | None =>
        con_carrito e
          (e_carrito e ++
             [mk_item (c_id producto) (c_nombre producto) (c_precio producto)
                cantidad (c_stock producto)])
    end.
Proof.
  intros Hlog Hcat Hstock. unfold agregarAlCarrito.
  rewrite Hlog, Hcat. cbn [negb].
  rewrite bool_decide_eq_false_2 by lia. reflexivity.
Qed.

(** X23.  Additions of a product add up: for a logged-in page and a
    product of the catalogue, adding [a] and then [b] units (neither
    negative) leaves the state that adding [a + b] at once leaves, and the
    quantity in the cart grows by [a + b], provided the sum with what the
    cart holds stays within the stock. *)
Theorem agregarAlCarrito_acumula productoId a b e j producto :
  estaLogueado e = true →
  list_find (λ p, c_id p = productoId) (e_productos e) = Some (j, producto) →
  0 ≤ a → 0 ≤ b →
  0 ≤ cantidad_de productoId (e_carrito e) →
  cantidad_de productoId (e_carrito e) + a + b ≤ c_stock producto →
  agregarAlCarrito productoId b (agregarAlCarrito productoId a e)
  = agregarAlCarrito productoId (a + b) e
  ∧ cantidad_de productoId
      (e_carrito (agregarAlCarrito productoId (a + b) e))
    = cantidad_de productoId (e_carrito e) + a + b.
Proof.
  intros Hlog Hcat Ha Hb Hq Hmax.
  pose proof Hcat as (_ & Hpid & _)%list_find_Some.
  rewrite (agregarAlCarrito_run productoId a e j producto Hlog Hcat) by lia.
  rewrite (agregarAlCarrito_run productoId (a + b) e j producto Hlog Hcat)
    by lia.
  unfold cantidad_de in Hq, Hmax |- *.
  destruct (list_find (λ i, it_id i = productoId) (e_carrito e))
    as [[k i] |] eqn:Hfind.
  - rewrite !bool_decide_eq_false_2 by lia.
    assert (list_find (λ i0, it_id i0 = productoId)
              (alter (con_cantidad (it_cantidad i + a)) k (e_carrito e))
            = Some (k, con_cantidad (it_cantidad i + a) i)) as Hfind1.
    { apply list_find_alter_conserva; [| exact Hfind]. intros x Hx. exact Hx. }
    split.
    + rewrite (agregarAlCarrito_run productoId b _ j producto);
        [| exact Hlog | exact Hcat | lia].
      cbn [con_carrito e_carrito]. rewrite Hfind1.
      cbn [con_cantidad it_cantidad].
      rewrite bool_decide_eq_false_2 by lia.
      cbn [e_usuario e_token e_productos]. f_equal.
      rewrite list_alter_alter_eq. apply list_alter_ext; [| reflexivity].
      intros x _. cbn. unfold con_cantidad. cbn. f_equal. lia.
    + cbn [con_carrito e_carrito].
      assert (list_find (λ i0, it_id i0 = productoId)
                (alter (con_cantidad (it_cantidad i + (a + b))) k (e_carrito e))
              = Some (k, con_cantidad (it_cantidad i + (a + b)) i)) as ->.
      { apply list_find_alter_conserva; [| exact Hfind].
        intros x Hx. exact Hx. }
      cbn. lia.
  - split.
    + rewrite (agregarAlCarrito_run productoId b _ j producto);
        [| exact Hlog | exact Hcat | lia].
      cbn [con_carrito e_carrito].
      rewrite (list_find_al_final (λ i, it_id i = productoId) (e_carrito e)
                 (mk_item (c_id producto) (c_nombre producto)
                    (c_precio producto) a (c_stock producto)) Hfind Hpid).
      cbn [it_cantidad]. rewrite bool_decide_eq_false_2 by lia.
      cbn [e_usuario e_token e_productos]. f_equal.
      rewrite alter_app_r_alt by lia. rewrite Nat.sub_diag. reflexivity.
    + cbn [con_carrito e_carrito].
      rewrite (list_find_al_final (λ i, it_id i = productoId) (e_carrito e)
                 (mk_item (c_id producto) (c_nombre producto)
                    (c_precio producto) (a + b) (c_stock producto))
                 Hfind Hpid).
      cbn. lia.
Qed.

Lemma agregarAlCarrito_acumula_witness :
  agregarAlCarrito 1 3 (agregarAlCarrito 1 2 sesion_iniciada)
  = agregarAlCarrito 1 (2 + 3) sesion_iniciada
  ∧ cantidad_de 1 (e_carrito (agregarAlCarrito 1 (2 + 3) sesion_iniciada))
    = cantidad_de 1 (e_carrito sesion_iniciada) + 2 + 3.
Proof.
  apply (agregarAlCarrito_acumula 1 2 3 sesion_iniciada 0%nat
           (mk_producto_catalogo 1 "Camiseta" 1999 5)).
  - reflexivity.
  - reflexivity.
  - lia.
  - lia.
  - cbn. lia.
  - cbn. lia.
Defined.

End acumular_facts.

(* ===================================================================== *)
(** * From the cart to the order *)
(* ===================================================================== *)

Section enviar_facts.
Import Frontend Ejemplo.

Lemma sesion_invariante acciones e :
  e_carrito e = [] →
  Forall accion_admisible acciones →
  invariante (sesion acciones e).
Proof.
  intros Hvacio Hadm.
  assert (invariante e) as Hinv.
  { unfold invariante, carrito_valido. rewrite Hvacio.
    repeat split; constructor. }
  clear Hvacio. revert e Hinv.
  induction Hadm as [|a acciones Ha _ IH]; intros e Hinv.
  - exact Hinv.
  - apply IH. apply invariante_ejecutar; assumption.
Qed.

(** X24.  The page's [crearPedido] empties the cart only after the
    server answered the request it built with an ok response carrying the
    order; in every other case (no session, empty cart, rejected or failed
    request, response without data) the state is left exactly as it was,
    so the cart is not lost. *)
Theorem crearPedido_vacia_solo_tras_exito fetch e :
  crearPedido fetch e = e
  ∨ (∃ peticion respuesta id,
       peticion_de e = Some peticion
       ∧ fetch peticion = Some respuesta
       ∧ rp_ok respuesta = true
       ∧ rp_data respuesta = Some id
       ∧ crearPedido fetch e = vaciarCarrito e).
Proof.
  unfold crearPedido, peticion_de.
  destruct (estaLogueado e); cbn [negb]; [| left; reflexivity].
  case_bool_decide as Hvacio; [left; reflexivity |].
  destruct (fetch _) as [respuesta |] eqn:Hfetch; [| left; reflexivity].
  destruct (rp_ok respuesta) eqn:Hok; [| left; reflexivity].
  destruct (rp_data respuesta) as [id |] eqn:Hdata; [| left; reflexivity].
  right. eexists _, respuesta, id. repeat split; eassumption.
Qed.

(** X25.  What the page posts after a session of admissible actions that
    started from the empty cart: the request exists only for a logged-in
    page with a non-empty cart, carries the header [Bearer <token>], and
    its lines are the cart entries in order, one per product, each with a
    quantity of at least 1 and at most the stock recorded in the cart. *)
Theorem peticion_de_sesion_bien_formada acciones e0 peticion :
  e_carrito e0 = [] →
  Forall accion_admisible acciones →
  peticion_de (sesion acciones e0) = Some peticion →
  estaLogueado (sesion acciones e0) = true
  ∧ pet_productos peticion ≠ []
  ∧ pet_productos peticion
    = (λ i, PedidosModel.mk_linea_solicitada (it_id i) (it_cantidad i))
        <$> e_carrito (sesion acciones e0)
  ∧ NoDup (PedidosModel.producto_id <$> pet_productos peticion)
  ∧ Forall (λ r, 1 ≤ PedidosModel.cantidad r) (pet_productos peticion)
  ∧ Forall (λ i, it_cantidad i ≤ it_stock i) (e_carrito (sesion acciones e0))
  ∧ ∃ token,
      e_token (sesion acciones e0) = Some token
      ∧ token ≠ ""
      ∧ cab_authorization (pet_headers peticion)
        = Some (String.append "Bearer " token).
Proof.
  intros Hvacio Hadm Hpet.
  destruct (sesion_invariante acciones e0 Hvacio Hadm)
    as [[Hrango Hdup] _].
  generalize dependent (sesion acciones e0). clear e0 Hvacio acciones Hadm.
  intros e Hpet Hrango Hdup.
  unfold peticion_de in Hpet.
  destruct (estaLogueado e) eqn:Hlog; cbn [negb] in Hpet; [| discriminate].
  case_bool_decide as Hlen; [discriminate |].
  injection Hpet as <-. cbn [pet_productos pet_headers].
  split; [reflexivity |]. split.
  { unfold productosParaPedido. intros Hnil. apply Hlen.
    apply fmap_nil_inv in Hnil. rewrite Hnil. reflexivity. }
  split; [reflexivity |]. split.
  { unfold productosParaPedido. rewrite <- list_fmap_compose. exact Hdup. }
  split.
  { unfold productosParaPedido. apply Forall_fmap.
    eapply Forall_impl; [exact Hrango |]. intros i [Hmin _]. exact Hmin. }
  split.
  { eapply Forall_impl; [exact Hrango |]. intros i [_ Hmax]. exact Hmax. }
  unfold estaLogueado in Hlog. unfold getAuthHeaders.
  destruct (e_usuario e); [| discriminate].
  destruct (e_token e) as [token |]; [| discriminate].
  apply negb_true_iff, bool_decide_eq_false in Hlog.
  exists token. split; [reflexivity |]. split; [exact Hlog |].
  cbn [cab_authorization]. rewrite bool_decide_eq_false_2 by exact Hlog.
  reflexivity.
Qed.

Lemma peticion_de_sesion_bien_formada_witness :
  let e := sesion [Agregar 1 2; Agregar 2 1] sesion_iniciada in
  estaLogueado e = true
  ∧ [PedidosModel.mk_linea_solicitada 1 2;
     PedidosModel.mk_linea_solicitada 2 1] ≠ []
  ∧ [PedidosModel.mk_linea_solicitada 1 2;
     PedidosModel.mk_linea_solicitada 2 1]
    = (λ i, PedidosModel.mk_linea_solicitada (it_id i) (it_cantidad i))
        <$> e_carrito e
  ∧ NoDup (PedidosModel.producto_id
             <$> [PedidosModel.mk_linea_solicitada 1 2;
                  PedidosModel.mk_linea_solicitada 2 1])
  ∧ Forall (λ r, 1 ≤ PedidosModel.cantidad r)
      [PedidosModel.mk_linea_solicitada 1 2;
       PedidosModel.mk_linea_solicitada 2 1]
  ∧ Forall (λ i, it_cantidad i ≤ it_stock i) (e_carrito e)
  ∧ ∃ token,
      e_token e = Some token
      ∧ token ≠ ""
      ∧ Some "Bearer token" = Some (String.append "Bearer " token).
Proof.
  apply (peticion_de_sesion_bien_formada [Agregar 1 2; Agregar 2 1]
           sesion_iniciada
           (mk_peticion_pedido
              (mk_cabeceras "application/json" (Some "Bearer token"))
              [PedidosModel.mk_linea_solicitada 1 2;
               PedidosModel.mk_linea_solicitada 2 1])).
  - reflexivity.
  - repeat constructor; cbn; lia.
  - reflexivity.
Defined.




End enviar_facts.
